(** * make_hollow.py: hollowing a triangle mesh by a scaled, flipped inner copy

    A shallow embedding of [src/make_hollow.py] and the properties of its
    single routine [make_hollow].

    The script computes on IEEE binary64 numbers (Python [float],
    [numpy.float64]).  The embedding is written once over an interface of
    scalars ([Scalar]) and instantiated twice: at Rocq's primitive binary64
    floats, which is what the script runs on, and at the rationals [Q], the
    exact arithmetic the floating-point code approximates.

    The script is a client of two libraries, trimesh and numpy.  The
    functions whose meaning is fixed by the way the script uses them (numpy
    broadcasting, [np.fliplr], [Trimesh.copy], [trimesh.util.concatenate])
    are modelled by definitions; the geometric queries and the file I/O of
    trimesh ([bounds], [centroid], [volume], [is_watertight], [load_mesh],
    [export]) are the fields of a [Library], and every theorem holds for
    every [Library]. *)

From Stdlib Require Import Floats QArith Qfield Lqa Lia.
From stdpp Require Import gmap strings list.

Set Warnings "-inexact-float".

(** ** Scalars *)

(** The arithmetic the script uses: [-], [+], [*], [/], the comparison [<]
    (Python's [a > b] is [b < a]) and the three numeric literals [2], [0.7]
    and [0.95]. *)
Class Scalar (F : Type) : Type := {
  fsub : F -> F -> F;
  fadd : F -> F -> F;
  fmul : F -> F -> F;
  fdiv : F -> F -> F;
  fltb : F -> F -> bool;
  lit_2 : F;
  lit_0_7 : F;
  lit_0_95 : F
}.

Declare Scope scalar_scope.
Delimit Scope scalar_scope with sc.
Infix "-" := fsub : scalar_scope.
Infix "+" := fadd : scalar_scope.
Infix "*" := fmul : scalar_scope.
Infix "/" := fdiv : scalar_scope.
Infix "<?" := fltb : scalar_scope.

(** binary64, round to nearest even: a division by zero yields an infinity
    or a NaN and raises nothing, as for [numpy.float64]; every comparison
    with a NaN is [false]. *)
#[export] Instance float_Scalar : Scalar float := {|
  fsub := PrimFloat.sub;
  fadd := PrimFloat.add;
  fmul := PrimFloat.mul;
  fdiv := PrimFloat.div;
  fltb := PrimFloat.ltb;
  lit_2 := 2%float;
  lit_0_7 := 0.7%float;
  lit_0_95 := 0.95%float
|}.

Definition Qltb (x y : Q) : bool := negb (Qle_bool y x).

(** Exact rationals, the arithmetic the floats approximate.  [x / 0] is [0]
    here by Rocq's convention; the program looks at the quotient only
    through the clamp. *)
#[export] Instance Q_Scalar : Scalar Q := {|
  fsub := Qminus;
  fadd := Qplus;
  fmul := Qmult;
  fdiv := Qdiv;
  fltb := Qltb;
  lit_2 := 2%Q;
  lit_0_7 := (7 # 10)%Q;
  lit_0_95 := (95 # 100)%Q
|}.

(** ** Meshes *)

(** A row of an [N x 3] numpy array. *)
Definition row3 (A : Type) : Type := (A * A * A)%type.

(** What the script reads and writes of a [trimesh.Trimesh]: the float64
    array [vertices] and the int64 array [faces], row by row.  No mesh that
    fits in memory has 2^63 vertices, so face indices are plain integers. *)
Record Trimesh (F : Type) : Type := mkTrimesh {
  vertices : list (row3 F);
  faces : list (row3 Z)
}.
Arguments mkTrimesh {F} _ _.
Arguments vertices {F} _.
Arguments faces {F} _.

Section Numeric.
Context {F : Type} `{Scalar F}.
Local Open Scope scalar_scope.

(** Python's builtin [min(a, b)]: the first argument unless the second is
    strictly smaller. *)
Definition py_min (a b : F) : F := if b <? a then b else a.

(** Python's builtin [max(a, b)]: the first argument unless the second is
    strictly greater. *)
Definition py_max (a b : F) : F := if a <? b then b else a.

(** [min(d)] for a length-3 array [d], iterated left to right. *)
Definition py_min3 (d : row3 F) : F :=
  let '(dx, dy, dz) := d in py_min (py_min dx dy) dz.

(** numpy's elementwise [a - b] on two length-3 arrays. *)
Definition row_sub (a b : row3 F) : row3 F :=
  let '(ax, ay, az) := a in
  let '(bx, by_, bz) := b in
  (ax - bx, ay - by_, az - bz).

(** [dimensions = bounds[1] - bounds[0]] *)
Definition dimensions (bounds : row3 F * row3 F) : row3 F :=
  row_sub (snd bounds) (fst bounds).

(** [min_dim = min(dimensions)] *)
Definition min_dim (bounds : row3 F * row3 F) : F :=
  py_min3 (dimensions bounds).

(** [(min_dim - 2 * wall_thickness) / min_dim] *)
Definition raw_scale_factor (min_dim wall_thickness : F) : F :=
  (min_dim - lit_2 * wall_thickness) / min_dim.

(** [max(0.7, min(scale_factor, 0.95))] *)
Definition clamp_scale_factor (scale_factor : F) : F :=
  py_max lit_0_7 (py_min scale_factor lit_0_95).

(** The value of the variable [scale_factor] after line 40. *)
Definition scale_factor (min_dim wall_thickness : F) : F :=
  clamp_scale_factor (raw_scale_factor min_dim wall_thickness).

(** One row of [(vertices - center) * scale_factor + center]: numpy
    broadcasts [center] over the rows and the scalar over every entry. *)
Definition scale_row (center : row3 F) (s : F) (v : row3 F) : row3 F :=
  let '(x, y, z) := v in
  let '(cx, cy, cz) := center in
  ((x - cx) * s + cx, (y - cy) * s + cy, (z - cz) * s + cz).

(** [(vertices - center) * scale_factor + center] *)
Definition scale_vertices (center : row3 F) (s : F)
    (vs : list (row3 F)) : list (row3 F) :=
  map (scale_row center s) vs.

(** The inverse map [(v' - center) / scale + center] on one row. *)
Definition unscale_row (center : row3 F) (s : F) (v : row3 F) : row3 F :=
  let '(x, y, z) := v in
  let '(cx, cy, cz) := center in
  ((x - cx) / s + cx, (y - cy) / s + cy, (z - cz) / s + cz).

End Numeric.

(** Modelled from the spec: [numpy.fliplr] is numpy's, not part of [src/];
    on an [N x 3] array it reverses the order of the entries of every row
    ("reverse index order"). *)
Definition fliplr {A : Type} (rows : list (row3 A)) : list (row3 A) :=
  map (fun r : row3 A => let '(a, b, c) := r in (c, b, a)) rows.

(** A face with every index moved up by [offset]. *)
Definition offset_face (offset : Z) (f : row3 Z) : row3 Z :=
  let '(a, b, c) := f in (a + offset, b + offset, c + offset)%Z.

(** The meshes of [ms] stacked, the first vertex of the next mesh getting
    index [offset]. *)
Fixpoint concatenate_from {F : Type} (offset : nat) (ms : list (Trimesh F))
    : Trimesh F :=
  match ms with
  | [] => mkTrimesh [] []
  | m :: rest =>
      let r := concatenate_from (offset + length (vertices m)) rest in
      mkTrimesh (vertices m ++ vertices r)
                (map (offset_face (Z.of_nat offset)) (faces m) ++ faces r)
  end.

(** Modelled from the spec: [trimesh.util.concatenate] is trimesh's, not
    part of [src/]; the vertex sequence is the meshes' vertices in order and
    the face sequence is their faces in order, the indices of each mesh
    offset by the number of vertices before it; nothing is merged. *)
Definition concatenate {F : Type} (ms : list (Trimesh F)) : Trimesh F :=
  concatenate_from 0 ms.

(** ** Objects, files and the console *)

Definition path : Type := string.

(** The identity of a Python object. *)
Definition loc : Type := positive.

(** The exceptions that can end a call: whatever [trimesh.load_mesh]
    raises; the [TypeError] of [bounds[1]] when [mesh.bounds] is [None];
    whatever [Trimesh.export] raises; and the use of a name bound to no
    object, which no run of [make_hollow] meets. *)
Inductive exn : Type :=
  | LoadFailure
  | NoneNotSubscriptable
  | ExportFailure
  | DanglingReference.

Inductive result (A : Type) : Type :=
  | Ok (a : A)
  | Raise (e : exn).
Arguments Ok {A} _.
Arguments Raise {A} _.

(** A printed line: which [print] statement produced it and the values it
    was formatted from.  The formatting of numbers is not modelled. *)
Inductive line (F : Type) : Type :=
  | Loading (input_file : path)
  | OriginalMesh
  | NVertices (n : nat)
  | NFaces (n : nat)
  | VolumeIs (volume : F)
  | IsWatertight (is_watertight : bool)
  | CreatingShell (wall_thickness : F)
  | ScaleFactorIs (scale_factor : F)
  | Combining
  | HollowMesh
  | MaterialSavings (scale_factor : F)
  | Exporting (output_file : path)
  | Done
  | ShouldSave (scale_factor : F).
Arguments Loading {F} _.
Arguments OriginalMesh {F}.
Arguments NVertices {F} _.
Arguments NFaces {F} _.
Arguments VolumeIs {F} _.
Arguments IsWatertight {F} _.
Arguments CreatingShell {F} _.
Arguments ScaleFactorIs {F} _.
Arguments Combining {F}.
Arguments HollowMesh {F}.
Arguments MaterialSavings {F} _.
Arguments Exporting {F} _.
Arguments Done {F}.
Arguments ShouldSave {F} _.

(** What a run does to the outside, in order: the lines it prints and the
    calls of [export] it makes, each with the mesh it hands over. *)
Inductive event (F : Type) : Type :=
  | Printed (l : line F)
  | Exported (output_file : path) (m : Trimesh F).
Arguments Printed {F} _.
Arguments Exported {F} _ _.

(** The store of [Trimesh] objects, the outside world the files live in,
    and the events so far. *)
Record state (F World : Type) : Type := mkState {
  heap : gmap loc (Trimesh F);
  world : World;
  events : list (event F)
}.
Arguments mkState {F World} _ _ _.
Arguments heap {F World} _.
Arguments world {F World} _.
Arguments events {F World} _.

(** A computation: it ends with a value or an exception, and the state it
    leaves is kept in both cases. *)
Definition M (F World A : Type) : Type :=
  state F World -> result A * state F World.

Definition ret {F World A : Type} (a : A) : M F World A :=
  fun st => (Ok a, st).

Definition bind {F World A B : Type}
    (c : M F World A) (k : A -> M F World B) : M F World B :=
  fun st =>
    match c st with
    | (Ok a, st') => k a st'
    | (Raise e, st') => (Raise e, st')
    end.

Definition raise {F World A : Type} (e : exn) : M F World A :=
  fun st => (Raise e, st).

Declare Scope prog_scope.
Delimit Scope prog_scope with prog.
Notation "'let!' x ':=' c 'in' k" := (bind c (fun x => k))
  (at level 10, x name, c at level 100, k at level 200) : prog_scope.
Notation "c ';;' k" := (bind c (fun _ => k))
  (at level 100, k at level 200, right associativity) : prog_scope.

(** ** What trimesh provides *)

(** The queries and the file I/O of trimesh the script calls.  They are
    not part of [src/]; everything below holds for every [Library]. *)
Record Library (F World : Type) : Type := mkLibrary {
  (** [trimesh.load_mesh(path)] reads the outside world and returns a mesh,
      or raises ([None]). *)
  trimesh_load_mesh : path -> World -> option (Trimesh F);
  (** [Trimesh.export(path)] changes the outside world and returns normally
      ([true]) or raises ([false]); the world it leaves when it raises is
      its own business. *)
  trimesh_export : Trimesh F -> path -> World -> World * bool;
  (** [Trimesh.bounds]: the two corners of the axis-aligned bounding box,
      or [None] for a mesh without one. *)
  bounds : Trimesh F -> option (row3 F * row3 F);
  (** [Trimesh.centroid], [Trimesh.volume], [Trimesh.is_watertight].  The
      three are modelled as returning a value; a run in which one of them
      raises (trimesh's [volume] does on a mesh without faces) is not
      described by this record. *)
  centroid : Trimesh F -> row3 F;
  volume : Trimesh F -> F;
  is_watertight : Trimesh F -> bool
}.
Arguments mkLibrary {F World} _ _ _ _ _ _.
Arguments trimesh_load_mesh {F World} _ _ _.
Arguments trimesh_export {F World} _ _ _ _.
Arguments bounds {F World} _ _.
Arguments centroid {F World} _ _.
Arguments volume {F World} _ _.
Arguments is_watertight {F World} _ _.

(** The same library with another watertightness check. *)
Definition with_is_watertight {F World : Type} (lib : Library F World)
    (check : Trimesh F -> bool) : Library F World :=
  mkLibrary (trimesh_load_mesh lib) (trimesh_export lib) (bounds lib)
    (centroid lib) (volume lib) check.

(** ** The program *)

Section Program.
Context {F : Type} `{Scalar F} {World : Type}.

Variable lib : Library F World.

Local Open Scope prog_scope.

(** [print(...)] *)
Definition print (l : line F) : M F World unit :=
  fun st => (Ok tt, mkState (heap st) (world st) (events st ++ [Printed l])).

(** A new object holding [m], under an identity no live object has. *)
Definition alloc (m : Trimesh F) : M F World loc :=
  fun st =>
    let l := fresh (dom (heap st)) in
    (Ok l, mkState (<[l := m]> (heap st)) (world st) (events st)).

(** The object a name refers to. *)
Definition deref (l : loc) : M F World (Trimesh F) :=
  fun st =>
    match heap st !! l with
    | Some m => (Ok m, st)
    | None => (Raise DanglingReference, st)
    end.

(** Reading an attribute or a property of an object. *)
Definition attr {A : Type} (f : Trimesh F -> A) (l : loc) : M F World A :=
  let! m := deref l in ret (f m).

(** An assignment to an attribute: the object is replaced in the store. *)
Definition assign (l : loc) (f : Trimesh F -> Trimesh F) : M F World unit :=
  let! m := deref l in
  fun st => (Ok tt, mkState (<[l := f m]> (heap st)) (world st) (events st)).

(** [obj.vertices = vs] *)
Definition set_vertices (l : loc) (vs : list (row3 F)) : M F World unit :=
  assign l (fun m => mkTrimesh vs (faces m)).

(** [obj.faces = fs] *)
Definition set_faces (l : loc) (fs : list (row3 Z)) : M F World unit :=
  assign l (fun m => mkTrimesh (vertices m) fs).

(** [trimesh.load_mesh(input_file)] *)
Definition load_mesh (input_file : path) : M F World loc :=
  fun st =>
    match trimesh_load_mesh lib input_file (world st) with
    | Some m => alloc m st
    | None => (Raise LoadFailure, st)
    end.

(** Modelled from the spec: [Trimesh.copy] is trimesh's, not part of
    [src/]; "a deep copy": a new object with the same vertices and faces. *)
Definition copy (l : loc) : M F World loc :=
  let! m := deref l in alloc m.

(** [trimesh.util.concatenate([a, b])]: a new object. *)
Definition concatenate_objects (a b : loc) : M F World loc :=
  let! ma := deref a in
  let! mb := deref b in
  alloc (concatenate [ma; mb]).

(** [obj.export(output_file)] *)
Definition export (l : loc) (output_file : path) : M F World unit :=
  let! m := deref l in
  fun st =>
    let out := trimesh_export lib m output_file (world st) in
    (if snd out then Ok tt else Raise ExportFailure,
     mkState (heap st) (fst out) (events st ++ [Exported output_file m])).

(** [bounds[1]] and [bounds[0]] need [bounds] to be an array. *)
Definition subscriptable (b : option (row3 F * row3 F))
    : M F World (row3 F * row3 F) :=
  match b with
  | Some b => ret b
  | None => raise NoneNotSubscriptable
  end.

(** [make_hollow(input_file, output_file, wall_thickness)], statement by
    statement. *)
Definition make_hollow (input_file output_file : path) (wall_thickness : F)
    : M F World unit :=
  print (Loading input_file) ;;
  let! mesh := load_mesh input_file in
  print OriginalMesh ;;
  let! n_vertices := attr (fun m => length (vertices m)) mesh in
  print (NVertices n_vertices) ;;
  let! n_faces := attr (fun m => length (faces m)) mesh in
  print (NFaces n_faces) ;;
  let! mesh_volume := attr (volume lib) mesh in
  print (VolumeIs mesh_volume) ;;
  let! mesh_is_watertight := attr (is_watertight lib) mesh in
  print (IsWatertight mesh_is_watertight) ;;
  let! mesh_bounds := attr (bounds lib) mesh in
  let! mesh_bounds := subscriptable mesh_bounds in
  let dimensions' := dimensions mesh_bounds in
  let min_dim' := py_min3 dimensions' in
  let scale_factor' := raw_scale_factor min_dim' wall_thickness in
  let scale_factor' := clamp_scale_factor scale_factor' in
  print (CreatingShell wall_thickness) ;;
  print (ScaleFactorIs scale_factor') ;;
  let! inner_mesh := copy mesh in
  let! center := attr (centroid lib) mesh in
  let! inner_vertices := attr vertices inner_mesh in
  set_vertices inner_mesh (scale_vertices center scale_factor' inner_vertices) ;;
  let! inner_faces := attr faces inner_mesh in
  set_faces inner_mesh (fliplr inner_faces) ;;
  print Combining ;;
  let! hollow_mesh := concatenate_objects mesh inner_mesh in
  print HollowMesh ;;
  let! n_vertices := attr (fun m => length (vertices m)) hollow_mesh in
  print (NVertices n_vertices) ;;
  let! n_faces := attr (fun m => length (faces m)) hollow_mesh in
  print (NFaces n_faces) ;;
  print (MaterialSavings scale_factor') ;;
  print (Exporting output_file) ;;
  export hollow_mesh output_file ;;
  print Done ;;
  print (ShouldSave scale_factor').

(** The script's entry point, [make_hollow("Top.stl", "Top.stl",
    wall_thickness=2.0)]. *)
Definition main : M F World unit := make_hollow "Top.stl" "Top.stl" lit_2.

(** The inner shell the run builds from the loaded mesh [m] with the scale
    factor [s], and the mesh it hands to [export]. *)
Definition inner_mesh_of (m : Trimesh F) (s : F) : Trimesh F :=
  mkTrimesh (scale_vertices (centroid lib m) s (vertices m))
    (fliplr (faces m)).

Definition hollow_mesh_of (m : Trimesh F) (s : F) : Trimesh F :=
  concatenate [m; inner_mesh_of m s].

(** The lines of a run up to the call of [export]. *)
Definition lines_before_export (input_file output_file : path)
    (wall_thickness : F) (m : Trimesh F) (s : F) : list (event F) :=
  [ Printed (Loading input_file);
    Printed OriginalMesh;
    Printed (NVertices (length (vertices m)));
    Printed (NFaces (length (faces m)));
    Printed (VolumeIs (volume lib m));
    Printed (IsWatertight (is_watertight lib m));
    Printed (CreatingShell wall_thickness);
    Printed (ScaleFactorIs s);
    Printed Combining;
    Printed HollowMesh;
    Printed (NVertices (length (vertices (hollow_mesh_of m s))));
    Printed (NFaces (length (faces (hollow_mesh_of m s))));
    Printed (MaterialSavings s);
    Printed (Exporting output_file) ].

End Program.

(** ** Observing a run *)

(** The events a computation adds to those of the state it starts in. *)
Definition output_of {F World A : Type} (c : M F World A)
    (st : state F World) : list (event F) :=
  drop (length (events st)) (events (snd (c st))).

(** The calls of [export] among some events: path and mesh. *)
Definition exported {F : Type} (evs : list (event F))
    : list (path * Trimesh F) :=
  flat_map (fun e => match e with
                     | Exported p m => [(p, m)]
                     | Printed _ => []
                     end) evs.

(** The scale factors among the printed lines. *)
Definition scale_factors_printed {F : Type} (evs : list (event F)) : list F :=
  flat_map (fun e => match e with
                     | Printed (ScaleFactorIs s) => [s]
                     | _ => []
                     end) evs.

(** An event with the answer of the watertightness check blotted out. *)
Definition blot_watertight {F : Type} (e : event F) : event F :=
  match e with
  | Printed (IsWatertight _) => Printed (IsWatertight true)
  | _ => e
  end.

(** ** A stand-in for trimesh, to run the program on concrete meshes

    Files hold meshes as they are; the bounding box is taken over all
    vertices; the centre is the middle of the box and the volume that of the
    box.  The theorems below hold for every choice of these functions; the
    stand-ins only serve to evaluate them. *)

Section StandIn.
Context {F : Type} `{Scalar F}.
Local Open Scope scalar_scope.

Definition row_min (a b : row3 F) : row3 F :=
  let '(ax, ay, az) := a in
  let '(bx, by_, bz) := b in
  (py_min ax bx, py_min ay by_, py_min az bz).

Definition row_max (a b : row3 F) : row3 F :=
  let '(ax, ay, az) := a in
  let '(bx, by_, bz) := b in
  (py_max ax bx, py_max ay by_, py_max az bz).

Definition bbox (m : Trimesh F) : option (row3 F * row3 F) :=
  match vertices m with
  | [] => None
  | v :: vs => Some (fold_left row_min vs v, fold_left row_max vs v)
  end.

Definition bbox_center (m : Trimesh F) : row3 F :=
  match bbox m with
  | Some ((x0, y0, z0), (x1, y1, z1)) =>
      ((x0 + x1) / lit_2, (y0 + y1) / lit_2, (z0 + z1) / lit_2)
  | None => (lit_2, lit_2, lit_2)
  end.

Definition bbox_volume (m : Trimesh F) : F :=
  match bbox m with
  | Some b => let '(dx, dy, dz) := dimensions b in dx * dy * dz
  | None => lit_2 - lit_2
  end.

(** Files as a finite map from paths to meshes. *)
Definition read_file (p : path) (w : gmap path (Trimesh F))
    : option (Trimesh F) :=
  w !! p.

(** An export that always succeeds. *)
Definition write_file (m : Trimesh F) (p : path) (w : gmap path (Trimesh F))
    : gmap path (Trimesh F) * bool :=
  (<[p := m]> w, true).

(** An export that fails half way: the vertices are on disk, the faces are
    not. *)
Definition torn_write (m : Trimesh F) (p : path) (w : gmap path (Trimesh F))
    : gmap path (Trimesh F) * bool :=
  (<[p := mkTrimesh (vertices m) []]> w, false).

(** The axis-aligned cube with opposite corners [(lo, lo, lo)] and
    [(hi, hi, hi)]: 8 vertices, 12 triangles. *)
Definition cube (lo hi : F) : Trimesh F :=
  mkTrimesh
    [ (lo, lo, lo); (hi, lo, lo); (hi, hi, lo); (lo, hi, lo);
      (lo, lo, hi); (hi, lo, hi); (hi, hi, hi); (lo, hi, hi) ]
    [ (0, 2, 1); (0, 3, 2); (4, 5, 6); (4, 6, 7);
      (0, 1, 5); (0, 5, 4); (1, 2, 6); (1, 6, 5);
      (2, 3, 7); (2, 7, 6); (3, 0, 4); (3, 4, 7) ]%Z.

(** A flat square in the plane [z = lo]: its bounding box has height zero. *)
Definition flat_square (lo hi : F) : Trimesh F :=
  mkTrimesh
    [ (lo, lo, lo); (hi, lo, lo); (hi, hi, lo); (lo, hi, lo) ]
    [ (0, 1, 2); (0, 2, 3) ]%Z.

(** A state with no object and nothing printed, whose files are [w]. *)
Definition fresh_state (w : gmap path (Trimesh F))
    : state F (gmap path (Trimesh F)) :=
  mkState ∅ w [].

(** The stand-in library, with a fixed answer to the watertightness
    check. *)
Definition stand_in (watertight : bool) : Library F (gmap path (Trimesh F)) :=
  mkLibrary read_file write_file bbox bbox_center bbox_volume
    (fun _ => watertight).

(** The same with the export that fails half way. *)
Definition stand_in_torn : Library F (gmap path (Trimesh F)) :=
  mkLibrary read_file torn_write bbox bbox_center bbox_volume
    (fun _ => true).

End StandIn.

Definition unit_cube : Trimesh float := cube 0%float 1%float.
Definition unit_cube_Q : Trimesh Q := cube 0%Q 1%Q.
Definition unit_square : Trimesh float := flat_square 0%float 1%float.

(** The files of the examples. *)
Definition cube_files : gmap path (Trimesh float) :=
  {[ "cube.stl" := unit_cube ]}.
Definition cube_files_Q : gmap path (Trimesh Q) :=
  {[ "cube.stl" := unit_cube_Q ]}.
Definition square_files : gmap path (Trimesh float) :=
  {[ "flat.stl" := unit_square ]}.

(** Two rows of rationals with equal entries. *)
Definition row_Qeq (u v : row3 Q) : Prop :=
  let '(x, y, z) := u in
  let '(x', y', z') := v in
  (x == x')%Q /\ (y == y')%Q /\ (z == z')%Q.

(** A row of rationals inside the axis-aligned box with corners [lo] and
    [hi]. *)
Definition row_within (lo hi v : row3 Q) : Prop :=
  let '(x, y, z) := v in
  let '(x0, y0, z0) := lo in
  let '(x1, y1, z1) := hi in
  (x0 <= x <= x1)%Q /\ (y0 <= y <= y1)%Q /\ (z0 <= z <= z1)%Q.

(** A face whose three indices lie in [lo, hi). *)
Definition face_within (lo hi : Z) (f : row3 Z) : bool :=
  let '(a, b, c) := f in
  ((lo <=? a) && (a <? hi) && (lo <=? b) && (b <? hi)
   && (lo <=? c) && (c <? hi))%Z.

(** The same library with another volume. *)
Definition with_volume {F World : Type} (lib : Library F World)
    (vol : Trimesh F -> F) : Library F World :=
  mkLibrary (trimesh_load_mesh lib) (trimesh_export lib) (bounds lib)
    (centroid lib) vol (is_watertight lib).

(** The same library with another centroid. *)
Definition with_centroid {F World : Type} (lib : Library F World)
    (cen : Trimesh F -> row3 F) : Library F World :=
  mkLibrary (trimesh_load_mesh lib) (trimesh_export lib) (bounds lib)
    cen (volume lib) (is_watertight lib).

(** Some events without the line that prints the volume. *)
Definition without_volume {F : Type} (evs : list (event F)) : list (event F) :=
  flat_map (fun e => match e with
                     | Printed (VolumeIs _) => []
                     | _ => [e]
                     end) evs.

(** [(1 - scale_factor**3) * 100], the figure of the two savings lines, in
    exact arithmetic. *)
Definition material_savings (scale_factor : Q) : Q :=
  ((1 - scale_factor ^ 3) * 100)%Q.

(** The file the script itself names. *)
Definition top_files : gmap path (Trimesh float) :=
  {[ "Top.stl" := unit_cube ]}.

(** A row of rationals times a number, and the squared length of the
    vector between two rows. *)
Definition row_times (s : Q) (u : row3 Q) : row3 Q :=
  let '(x, y, z) := u in (s * x, s * y, s * z)%Q.

Definition dist2 (u v : row3 Q) : Q :=
  let '(dx, dy, dz) := row_sub u v in (dx * dx + dy * dy + dz * dz)%Q.

(** The three axes, and the coordinate of a row along one of them. *)
Inductive axis : Type := X_axis | Y_axis | Z_axis.

Definition coord {A : Type} (a : axis) (u : row3 A) : A :=
  let '(x, y, z) := u in
  match a with X_axis => x | Y_axis => y | Z_axis => z end.

(** A cube of side 2 far from the origin: binary64 has no number between
    its two coordinates [1e16] and [1e16 + 2]. *)
Definition far_cube : Trimesh float :=
  cube 10000000000000000%float 10000000000000002%float.
Definition far_files : gmap path (Trimesh float) :=
  {[ "far.obj" := far_cube ]}.

(** ** Running the statements *)

Section Steps.
Context {F : Type} `{Scalar F} {World : Type}.
Variable lib : Library F World.

Lemma bind_Ok {A B : Type} (c : M F World A) (k : A -> M F World B) st a st' :
  c st = (Ok a, st') -> bind c k st = k a st'.
Proof. intros E. unfold bind. now rewrite E. Qed.

Lemma bind_Raise {A B : Type} (c : M F World A) (k : A -> M F World B)
    st e st' :
  c st = (Raise e, st') -> bind c k st = (Raise e, st').
Proof. intros E. unfold bind. now rewrite E. Qed.

Lemma run_print (l : line F) (st : state F World) :
  print l st
  = (Ok tt, mkState (heap st) (world st) (events st ++ [Printed l])).
Proof. reflexivity. Qed.

Lemma run_attr {A : Type} (f : Trimesh F -> A) l (st : state F World) m :
  heap st !! l = Some m -> attr f l st = (Ok (f m), st).
Proof. intros E. unfold attr, bind, deref. now rewrite E. Qed.

Lemma run_assign l f (st : state F World) m :
  heap st !! l = Some m ->
  assign l f st
  = (Ok tt, mkState (<[l := f m]> (heap st)) (world st) (events st)).
Proof. intros E. unfold assign, bind, deref. now rewrite E. Qed.

Lemma run_load_mesh input_file (st : state F World) m :
  trimesh_load_mesh lib input_file (world st) = Some m ->
  load_mesh lib input_file st
  = (Ok (fresh (dom (heap st))),
     mkState (<[fresh (dom (heap st)) := m]> (heap st)) (world st)
       (events st)).
Proof. intros E. unfold load_mesh. now rewrite E. Qed.

Lemma run_load_mesh_fails input_file (st : state F World) :
  trimesh_load_mesh lib input_file (world st) = None ->
  load_mesh lib input_file st = (Raise LoadFailure, st).
Proof. intros E. unfold load_mesh. now rewrite E. Qed.

Lemma run_copy l (st : state F World) m :
  heap st !! l = Some m ->
  copy l st
  = (Ok (fresh (dom (heap st))),
     mkState (<[fresh (dom (heap st)) := m]> (heap st)) (world st)
       (events st)).
Proof. intros E. unfold copy, bind, deref. now rewrite E. Qed.

Lemma run_concatenate_objects a b (st : state F World) ma mb :
  heap st !! a = Some ma -> heap st !! b = Some mb ->
  concatenate_objects a b st
  = (Ok (fresh (dom (heap st))),
     mkState (<[fresh (dom (heap st)) := concatenate [ma; mb]]> (heap st))
       (world st) (events st)).
Proof.
  intros Ea Eb. unfold concatenate_objects, bind, deref. now rewrite Ea, Eb.
Qed.

Lemma run_export l output_file (st : state F World) m :
  heap st !! l = Some m ->
  export lib l output_file st
  = (if snd (trimesh_export lib m output_file (world st))
     then Ok tt else Raise ExportFailure,
     mkState (heap st) (fst (trimesh_export lib m output_file (world st)))
       (events st ++ [Exported output_file m])).
Proof. intros E. unfold export, bind, deref. now rewrite E. Qed.

(** A fresh identity differs from every live one. *)
Lemma fresh_ne (h : gmap loc (Trimesh F)) l m :
  h !! l = Some m -> l <> fresh (dom h).
Proof.
  intros E ->. apply (is_fresh (dom h)). apply elem_of_dom. eauto.
Qed.

End Steps.

(** Looking an object up in a store built by insertions. *)
Ltac lookup_heap :=
  cbn [heap];
  repeat first
    [ apply lookup_insert_eq
    | rewrite lookup_insert_eq; reflexivity
    | rewrite lookup_insert_ne
        by (assumption || (apply not_eq_sym; assumption)) ];
  try reflexivity.

(** One statement that returns, run on the state at hand. *)
Ltac run_step :=
  first
    [ erewrite bind_Ok by apply run_print
    | erewrite bind_Ok by (apply run_attr; lookup_heap)
    | erewrite bind_Ok by (apply run_load_mesh; eassumption)
    | erewrite bind_Ok by (apply run_copy; lookup_heap)
    | erewrite bind_Ok by (apply run_assign; lookup_heap)
    | erewrite bind_Ok by (apply run_concatenate_objects; lookup_heap) ];
  cbn [heap world events].

(** ** Lists and meshes *)

Lemma lookup_map {A B : Type} (f : A -> B) (l : list A) i x :
  l !! i = Some x -> map f l !! i = Some (f x).
Proof.
  revert i. induction l as [|y l IH]; intros [|i]; cbn; try discriminate.
  - now intros [= ->].
  - apply IH.
Qed.

Lemma lookup_app_plus {A : Type} (l1 l2 : list A) i :
  (l1 ++ l2) !! (length l1 + i) = l2 !! i.
Proof. induction l1 as [|x l1 IH]; [reflexivity|exact IH]. Qed.

Lemma fliplr_lookup {A : Type} (rows : list (row3 A)) i a b c :
  rows !! i = Some (a, b, c) -> fliplr rows !! i = Some (c, b, a).
Proof. intros Hi. exact (lookup_map _ _ _ _ Hi). Qed.

Lemma offset_face_0 (f : row3 Z) : offset_face 0 f = f.
Proof. destruct f as [[a b] c]. cbn. now rewrite !Z.add_0_r. Qed.

Lemma concatenate_two {F : Type} (m1 m2 : Trimesh F) :
  concatenate [m1; m2]
  = mkTrimesh (vertices m1 ++ vertices m2)
      (faces m1
       ++ map (offset_face (Z.of_nat (length (vertices m1)))) (faces m2)).
Proof.
  unfold concatenate. cbn. rewrite !app_nil_r. f_equal. f_equal.
  induction (faces m1) as [|f fs IH]; cbn; [reflexivity|].
  now rewrite offset_face_0, IH.
Qed.

Lemma output_of_events {F World A : Type} (c : M F World A) st evs :
  events (snd (c st)) = events st ++ evs -> output_of c st = evs.
Proof. unfold output_of. intros ->. apply drop_app_length. Qed.

(** ** Running [make_hollow] *)

Section Runs.
Context {F : Type} `{Scalar F} {World : Type}.
Variable lib : Library F World.

(** A run whose input loads and has a bounding box: three objects are
    created, every line is printed up to the call of [export], and the call
    ends as [export] ends. *)
Lemma make_hollow_run st input_file output_file wall_thickness m box :
  trimesh_load_mesh lib input_file (world st) = Some m ->
  bounds lib m = Some box ->
  let s := scale_factor (min_dim box) wall_thickness in
  let mesh := fresh (dom (heap st)) in
  let h1 := <[mesh := m]> (heap st) in
  let inner_mesh := fresh (dom h1) in
  let h2 := <[inner_mesh := inner_mesh_of lib m s]> h1 in
  let hollow_mesh := fresh (dom h2) in
  let h3 := <[hollow_mesh := hollow_mesh_of lib m s]> h2 in
  let out := trimesh_export lib (hollow_mesh_of lib m s) output_file (world st) in
  make_hollow lib input_file output_file wall_thickness st
  = (if snd out then Ok tt else Raise ExportFailure,
     mkState h3 (fst out)
       (events st
        ++ lines_before_export lib input_file output_file wall_thickness m s
        ++ [Exported output_file (hollow_mesh_of lib m s)]
        ++ (if snd out
            then [Printed Done; Printed (ShouldSave s)] else []))).
Proof.
  intros Hload Hb s mesh h1 inner_mesh h2 hollow_mesh h3 out.
  assert (Hne : mesh <> inner_mesh).
  { apply (fresh_ne h1 mesh m). apply lookup_insert_eq. }
  unfold make_hollow, set_vertices, set_faces.
  repeat run_step. rewrite Hb. cbn [subscriptable].
  erewrite bind_Ok by reflexivity.
  repeat run_step. fold mesh h1 inner_mesh.
  rewrite !insert_insert_eq. cbn [vertices faces].
  change (mkTrimesh (scale_vertices (centroid lib m) _ (vertices m))
            (fliplr (faces m)))
    with (inner_mesh_of lib m s).
  change (concatenate [m; inner_mesh_of lib m s])
    with (hollow_mesh_of lib m s).
  fold h2 hollow_mesh h3.
  change (clamp_scale_factor _) with s.
  unfold bind at 1.
  rewrite (run_export lib hollow_mesh output_file _ (hollow_mesh_of lib m s))
    by (cbn [heap]; apply lookup_insert_eq).
  cbn [heap world events]. fold out.
  destruct (snd out).
  - repeat run_step. unfold print. cbn [heap world events].
    f_equal. f_equal. unfold lines_before_export.
    rewrite <- !app_assoc. reflexivity.
  - f_equal. f_equal. unfold lines_before_export.
    rewrite <- !app_assoc. reflexivity.
Qed.

(** A run whose input does not load. *)
Lemma make_hollow_run_load_fails st input_file output_file wall_thickness :
  trimesh_load_mesh lib input_file (world st) = None ->
  make_hollow lib input_file output_file wall_thickness st
  = (Raise LoadFailure,
     mkState (heap st) (world st)
       (events st ++ [Printed (Loading input_file)])).
Proof.
  intros Hload. unfold make_hollow.
  run_step. now erewrite bind_Raise by (apply run_load_mesh_fails; assumption).
Qed.

(** A run whose input loads and has no bounding box. *)
Lemma make_hollow_run_no_bounds st input_file output_file wall_thickness m :
  trimesh_load_mesh lib input_file (world st) = Some m ->
  bounds lib m = None ->
  make_hollow lib input_file output_file wall_thickness st
  = (Raise NoneNotSubscriptable,
     mkState (<[fresh (dom (heap st)) := m]> (heap st)) (world st)
       (events st
        ++ [ Printed (Loading input_file);
             Printed OriginalMesh;
             Printed (NVertices (length (vertices m)));
             Printed (NFaces (length (faces m)));
             Printed (VolumeIs (volume lib m));
             Printed (IsWatertight (is_watertight lib m)) ])).
Proof.
  intros Hload Hb. unfold make_hollow.
  repeat run_step. rewrite Hb. cbn [subscriptable].
  erewrite bind_Raise by reflexivity.
  f_equal. f_equal. rewrite <- !app_assoc. reflexivity.
Qed.

Lemma make_hollow_result st input_file output_file wall_thickness m box :
  trimesh_load_mesh lib input_file (world st) = Some m ->
  bounds lib m = Some box ->
  let s := scale_factor (min_dim box) wall_thickness in
  let out := trimesh_export lib (hollow_mesh_of lib m s) output_file (world st) in
  fst (make_hollow lib input_file output_file wall_thickness st)
  = (if snd out then Ok tt else Raise ExportFailure).
Proof.
  intros Hload Hb s out. now rewrite (make_hollow_run _ _ _ _ m box Hload Hb).
Qed.

Lemma make_hollow_output st input_file output_file wall_thickness m box :
  trimesh_load_mesh lib input_file (world st) = Some m ->
  bounds lib m = Some box ->
  let s := scale_factor (min_dim box) wall_thickness in
  let out := trimesh_export lib (hollow_mesh_of lib m s) output_file (world st) in
  output_of (make_hollow lib input_file output_file wall_thickness) st
  = lines_before_export lib input_file output_file wall_thickness m s
    ++ [Exported output_file (hollow_mesh_of lib m s)]
    ++ (if snd out then [Printed Done; Printed (ShouldSave s)] else []).
Proof.
  intros Hload Hb s out. apply output_of_events.
  now rewrite (make_hollow_run _ _ _ _ m box Hload Hb).
Qed.

Lemma make_hollow_exported st input_file output_file wall_thickness m box :
  trimesh_load_mesh lib input_file (world st) = Some m ->
  bounds lib m = Some box ->
  exported
    (output_of (make_hollow lib input_file output_file wall_thickness) st)
  = [(output_file,
      hollow_mesh_of lib m (scale_factor (min_dim box) wall_thickness))].
Proof.
  intros Hload Hb. rewrite (make_hollow_output _ _ _ _ m box Hload Hb).
  cbv zeta. destruct (snd _); reflexivity.
Qed.

Lemma make_hollow_scale_factor_printed st input_file output_file
    wall_thickness m box :
  trimesh_load_mesh lib input_file (world st) = Some m ->
  bounds lib m = Some box ->
  scale_factors_printed
    (output_of (make_hollow lib input_file output_file wall_thickness) st)
  = [scale_factor (min_dim box) wall_thickness].
Proof.
  intros Hload Hb. rewrite (make_hollow_output _ _ _ _ m box Hload Hb).
  cbv zeta. destruct (snd _); reflexivity.
Qed.

(** The store a run leaves: the loaded mesh and the inner mesh are two
    objects, and no object that existed before is touched. *)
Lemma make_hollow_store st input_file output_file wall_thickness m box :
  trimesh_load_mesh lib input_file (world st) = Some m ->
  bounds lib m = Some box ->
  let st' := snd (make_hollow lib input_file output_file wall_thickness st) in
  let mesh := fresh (dom (heap st)) in
  let inner_mesh := fresh (dom (<[mesh := m]> (heap st))) in
  mesh <> inner_mesh
  /\ heap st' !! mesh = Some m
  /\ heap st' !! inner_mesh
     = Some (inner_mesh_of lib m (scale_factor (min_dim box) wall_thickness))
  /\ forall l, l ∈ dom (heap st) -> heap st' !! l = heap st !! l.
Proof.
  intros Hload Hb st' mesh inner_mesh. subst st'.
  rewrite (make_hollow_run _ _ _ _ m box Hload Hb).
  cbv zeta. cbn [snd heap]. fold mesh inner_mesh.
  set (inner := inner_mesh_of lib m _).
  set (h1 := <[mesh := m]> (heap st)).
  set (h2 := <[inner_mesh := inner]> h1).
  set (hollow_mesh := fresh (dom h2)).
  assert (Hne : mesh <> inner_mesh).
  { apply (fresh_ne h1 mesh m). apply lookup_insert_eq. }
  assert (H2m : h2 !! mesh = Some m).
  { unfold h2. rewrite lookup_insert_ne by (apply not_eq_sym; exact Hne).
    apply lookup_insert_eq. }
  assert (H2i : h2 !! inner_mesh = Some inner) by apply lookup_insert_eq.
  repeat split.
  - exact Hne.
  - rewrite lookup_insert_ne; [exact H2m|].
    apply not_eq_sym, (fresh_ne h2 mesh m H2m).
  - rewrite lookup_insert_ne; [exact H2i|].
    apply not_eq_sym, (fresh_ne h2 inner_mesh inner H2i).
  - intros l Hl. apply elem_of_dom in Hl as [x Hx].
    assert (H1l : h1 !! l = Some x).
    { unfold h1. rewrite lookup_insert_ne; [exact Hx|].
      apply not_eq_sym, (fresh_ne (heap st) l x Hx). }
    assert (H2l : h2 !! l = Some x).
    { unfold h2. rewrite lookup_insert_ne; [exact H1l|].
      apply not_eq_sym, (fresh_ne h1 l x H1l). }
    rewrite lookup_insert_ne; [now rewrite H2l|].
    apply not_eq_sym, (fresh_ne h2 l x H2l).
Qed.

End Runs.

(** ** The order of binary64 numbers *)

(** The comparison of [SpecFloat], which the primitive comparisons are
    specified by, is an order on everything but NaN. *)

Ltac sf_cases :=
  repeat match goal with
         | s : bool |- _ => destruct s
         | |- context [PosDef.Pos.compare_cont Eq ?a ?b] =>
             change (PosDef.Pos.compare_cont Eq a b) with (Pos.compare a b)
         | H : context [PosDef.Pos.compare_cont Eq ?a ?b] |- _ =>
             change (PosDef.Pos.compare_cont Eq a b) with (Pos.compare a b) in H
         | |- context [(?a ?= ?b)%Z] => destruct (Z.compare_spec a b)
         | |- context [(?a ?= ?b)%positive] => destruct (Pos.compare_spec a b)
         | H : context [(?a ?= ?b)%Z] |- _ => destruct (Z.compare_spec a b)
         | H : context [(?a ?= ?b)%positive] |- _ =>
             destruct (Pos.compare_spec a b)
         end;
  cbn [CompOpp] in *; subst; try congruence; try lia.

Lemma SFcompare_swap x y c :
  SFcompare x y = Some c -> SFcompare y x = Some (CompOpp c).
Proof.
  destruct x as [sx|sx| |sx mx ex], y as [sy|sy| |sy my ey];
    cbn -[Z.compare Pos.compare]; intros E; inversion E; subst; clear E;
    sf_cases; sf_cases.
Qed.

Lemma SFcompare_Lt_trans x y z :
  SFcompare x y = Some Lt -> SFcompare y z = Some Lt ->
  SFcompare x z = Some Lt.
Proof.
  destruct x as [sx|sx| |sx mx ex], y as [sy|sy| |sy my ey],
    z as [sz|sz| |sz mz ez];
    cbn -[Z.compare Pos.compare]; intros E1 E2;
    inversion E1 as [E1']; inversion E2 as [E2']; clear E1 E2;
    sf_cases; sf_cases.
Qed.

Lemma SFcompare_Eq_Lt x y z :
  SFcompare x y = Some Eq -> SFcompare y z = Some Lt ->
  SFcompare x z = Some Lt.
Proof.
  destruct x as [sx|sx| |sx mx ex], y as [sy|sy| |sy my ey],
    z as [sz|sz| |sz mz ez];
    cbn -[Z.compare Pos.compare]; intros E1 E2;
    inversion E1 as [E1']; inversion E2 as [E2']; clear E1 E2;
    sf_cases; sf_cases.
Qed.

Lemma SFcompare_Lt_Eq x y z :
  SFcompare x y = Some Lt -> SFcompare y z = Some Eq ->
  SFcompare x z = Some Lt.
Proof.
  destruct x as [sx|sx| |sx mx ex], y as [sy|sy| |sy my ey],
    z as [sz|sz| |sz mz ez];
    cbn -[Z.compare Pos.compare]; intros E1 E2;
    inversion E1 as [E1']; inversion E2 as [E2']; clear E1 E2;
    sf_cases; sf_cases.
Qed.

Lemma SFcompare_Eq_finite s m e y :
  SFcompare (S754_finite s m e) y = Some Eq -> y = S754_finite s m e.
Proof.
  destruct y as [sy|sy| |sy my ey];
    cbn -[Z.compare Pos.compare]; intros E; inversion E as [E']; clear E;
    sf_cases; sf_cases.
Qed.

(** The same facts on the primitive comparisons. *)

Lemma ltb_leb (a b : float) : (a <? b)%float = true -> (a <=? b)%float = true.
Proof.
  rewrite FloatAxioms.ltb_spec, FloatAxioms.leb_spec. unfold SFltb, SFleb.
  destruct (SFcompare (Prim2SF a) (Prim2SF b)) as [[]|]; congruence.
Qed.

Lemma ltb_asym (a b : float) : (a <? b)%float = true -> (b <? a)%float = false.
Proof.
  rewrite !FloatAxioms.ltb_spec. unfold SFltb.
  destruct (SFcompare (Prim2SF a) (Prim2SF b)) as [c|] eqn:E; [|discriminate].
  rewrite (SFcompare_swap _ _ _ E). destruct c; cbn; congruence.
Qed.

Lemma leb_not_ltb (a b : float) :
  (a <=? b)%float = true -> (b <? a)%float = false.
Proof.
  rewrite FloatAxioms.ltb_spec, FloatAxioms.leb_spec. unfold SFltb, SFleb.
  destruct (SFcompare (Prim2SF a) (Prim2SF b)) as [c|] eqn:E; [|discriminate].
  rewrite (SFcompare_swap _ _ _ E). destruct c; cbn; congruence.
Qed.

Lemma ltb_trans (a b c : float) :
  (a <? b)%float = true -> (b <? c)%float = true -> (a <? c)%float = true.
Proof.
  rewrite !FloatAxioms.ltb_spec. unfold SFltb.
  destruct (SFcompare (Prim2SF a) (Prim2SF b)) as [[]|] eqn:E1; try discriminate.
  destruct (SFcompare (Prim2SF b) (Prim2SF c)) as [[]|] eqn:E2; try discriminate.
  now rewrite (SFcompare_Lt_trans _ _ _ E1 E2).
Qed.

Lemma leb_ltb_trans (a b c : float) :
  (a <=? b)%float = true -> (b <? c)%float = true -> (a <? c)%float = true.
Proof.
  rewrite !FloatAxioms.ltb_spec, FloatAxioms.leb_spec. unfold SFltb, SFleb.
  destruct (SFcompare (Prim2SF a) (Prim2SF b)) as [[]|] eqn:E1; try discriminate;
    destruct (SFcompare (Prim2SF b) (Prim2SF c)) as [[]|] eqn:E2;
    try discriminate; intros _ _.
  - now rewrite (SFcompare_Eq_Lt _ _ _ E1 E2).
  - now rewrite (SFcompare_Lt_trans _ _ _ E1 E2).
Qed.

Lemma ltb_leb_trans (a b c : float) :
  (a <? b)%float = true -> (b <=? c)%float = true -> (a <? c)%float = true.
Proof.
  rewrite !FloatAxioms.ltb_spec, FloatAxioms.leb_spec. unfold SFltb, SFleb.
  destruct (SFcompare (Prim2SF a) (Prim2SF b)) as [[]|] eqn:E1; try discriminate;
    destruct (SFcompare (Prim2SF b) (Prim2SF c)) as [[]|] eqn:E2;
    try discriminate; intros _ _.
  - now rewrite (SFcompare_Lt_Eq _ _ _ E1 E2).
  - now rewrite (SFcompare_Lt_trans _ _ _ E1 E2).
Qed.

(** What is neither above [b] nor a NaN is at most [b]. *)
Lemma not_ltb_leb (a b x : float) :
  (a <? x)%float = true -> (b <? x)%float = false -> (b <=? b)%float = true ->
  (x <=? b)%float = true.
Proof.
  rewrite !FloatAxioms.ltb_spec, !FloatAxioms.leb_spec. unfold SFltb, SFleb. intros Ha Hb Hnan.
  destruct (SFcompare (Prim2SF b) (Prim2SF x)) as [c|] eqn:E.
  - rewrite (SFcompare_swap _ _ _ E). destruct c; cbn; congruence.
  - exfalso. destruct (Prim2SF b), (Prim2SF x), (Prim2SF a);
      cbn -[Z.compare Pos.compare] in *; congruence.
Qed.

(** A number that is at least a finite nonzero [c] and not above it is
    [c] itself. *)
Lemma leb_not_ltb_eq (c x : float) s m e :
  Prim2SF c = S754_finite s m e ->
  (c <=? x)%float = true -> (c <? x)%float = false -> x = c.
Proof.
  intros Hc. rewrite FloatAxioms.ltb_spec, FloatAxioms.leb_spec, Hc. unfold SFltb, SFleb.
  destruct (SFcompare (S754_finite s m e) (Prim2SF x)) as [[]|] eqn:E;
    try discriminate.
  intros _ _. apply Prim2SF_inj. rewrite Hc. now apply SFcompare_Eq_finite.
Qed.

Lemma Prim2SF_0_7 :
  Prim2SF 0.7%float = S754_finite false 6305039478318694 (-53).
Proof. vm_compute. reflexivity. Qed.

Lemma Prim2SF_0_95 :
  Prim2SF 0.95%float = S754_finite false 8556839292003942 (-53).
Proof. vm_compute. reflexivity. Qed.

Lemma Prim2SF_0 : Prim2SF 0%float = S754_zero false.
Proof. vm_compute. reflexivity. Qed.

(** ** The clamp *)

(** The clamp, case by case; holds for every scalar type. *)
Lemma clamp_scale_factor_cases {F : Type} `{Scalar F} (x : F) :
  clamp_scale_factor x
  = if (lit_0_95 <? x)%sc
    then (if (lit_0_7 <? lit_0_95)%sc then lit_0_95 else lit_0_7)
    else if (lit_0_7 <? x)%sc then x else lit_0_7.
Proof.
  unfold clamp_scale_factor, py_max, py_min.
  destruct (lit_0_95 <? x)%sc; reflexivity.
Qed.

Lemma clamp_scale_factor_float (x : float) :
  clamp_scale_factor x
  = if (0.95 <? x)%float then 0.95%float
    else if (0.7 <? x)%float then x else 0.7%float.
Proof. rewrite clamp_scale_factor_cases. reflexivity. Qed.

Lemma clamp_scale_factor_range (x : float) :
  (0.7 <=? clamp_scale_factor x)%float = true
  /\ (clamp_scale_factor x <=? 0.95)%float = true.
Proof.
  rewrite clamp_scale_factor_float.
  destruct (0.95 <? x)%float eqn:E95; [split; reflexivity|].
  destruct (0.7 <? x)%float eqn:E7; [|split; reflexivity].
  split.
  - now apply ltb_leb.
  - now apply (not_ltb_leb 0.7%float).
Qed.

Lemma clamp_scale_factor_contracts (x : float) :
  (0 <? clamp_scale_factor x)%float = true
  /\ (clamp_scale_factor x <? 1)%float = true.
Proof.
  destruct (clamp_scale_factor_range x) as [Hlo Hhi]. split.
  - now apply (ltb_leb_trans _ 0.7%float).
  - now apply (leb_ltb_trans _ 0.95%float).
Qed.

Lemma clamp_scale_factor_below (x : float) :
  (x <? 0.7)%float = true -> clamp_scale_factor x = 0.7%float.
Proof.
  intros Hx. rewrite clamp_scale_factor_float.
  destruct (0.95 <? x)%float eqn:E95.
  - pose proof (ltb_trans _ _ _ E95 Hx) as Habs. discriminate Habs.
  - now rewrite (ltb_asym _ _ Hx).
Qed.

Lemma clamp_scale_factor_above (x : float) :
  (0.95 <? x)%float = true -> clamp_scale_factor x = 0.95%float.
Proof. intros Hx. rewrite clamp_scale_factor_float. now rewrite Hx. Qed.

Lemma clamp_scale_factor_within (x : float) :
  (0.7 <=? x)%float = true -> (x <=? 0.95)%float = true ->
  clamp_scale_factor x = x.
Proof.
  intros Hlo Hhi. rewrite clamp_scale_factor_float.
  rewrite (leb_not_ltb _ _ Hhi).
  destruct (0.7 <? x)%float eqn:E7; [reflexivity|].
  symmetry. exact (leb_not_ltb_eq _ _ _ _ _ Prim2SF_0_7 Hlo E7).
Qed.

(** ** Division by zero *)

Lemma eqb_zero_Prim2SF (d : float) :
  (d =? 0)%float = true -> exists s, Prim2SF d = S754_zero s.
Proof.
  rewrite FloatAxioms.eqb_spec, Prim2SF_0. unfold SFeqb.
  destruct (Prim2SF d) as [s|s| |s m e]; cbn; try discriminate; eauto.
  all: destruct s; discriminate.
Qed.

(** Dividing by a zero leaves an infinity or a NaN. *)
Lemma div_zero_Prim2SF (x d : float) :
  (d =? 0)%float = true ->
  Prim2SF (x / d) = S754_nan \/ exists s, Prim2SF (x / d) = S754_infinity s.
Proof.
  intros Hd. destruct (eqb_zero_Prim2SF d Hd) as [s Hs].
  rewrite FloatAxioms.div_spec, Hs. unfold SF64div, SFdiv.
  destruct (Prim2SF x) as [sx|sx| |sx mx ex]; eauto.
Qed.

Lemma SFltb_finite_special m e :
  SFltb (S754_finite false m e) S754_nan = false
  /\ SFltb (S754_finite false m e) (S754_infinity true) = false
  /\ SFltb (S754_finite false m e) (S754_infinity false) = true.
Proof. repeat split. Qed.

Lemma clamp_scale_factor_div_zero (x d : float) :
  (d =? 0)%float = true ->
  clamp_scale_factor (x / d)%float = 0.7%float
  \/ clamp_scale_factor (x / d)%float = 0.95%float.
Proof.
  intros Hd. rewrite clamp_scale_factor_float.
  rewrite !FloatAxioms.ltb_spec, Prim2SF_0_7, Prim2SF_0_95.
  destruct (SFltb_finite_special 6305039478318694 (-53)) as (N7 & M7 & P7).
  destruct (SFltb_finite_special 8556839292003942 (-53)) as (N95 & M95 & P95).
  destruct (div_zero_Prim2SF x d Hd) as [-> | [[] ->]].
  - rewrite N95, N7. now left.
  - rewrite M95, M7. now left.
  - rewrite P95. now right.
Qed.

(** ** The clamp over the rationals *)

Lemma Qltb_true (x y : Q) : Qltb x y = true -> (x < y)%Q.
Proof.
  unfold Qltb. intros E. apply Qnot_le_lt. intros Hle.
  apply Qle_bool_iff in Hle. rewrite Hle in E. discriminate.
Qed.

Lemma Qltb_false (x y : Q) : Qltb x y = false -> (y <= x)%Q.
Proof.
  unfold Qltb. intros E. apply Qle_bool_iff.
  destruct (Qle_bool y x); [reflexivity|discriminate].
Qed.

(** Over the rationals the clamped factor lies between 7/10 and 95/100. *)
Lemma clamp_scale_factor_Q_range (x : Q) :
  (7 # 10 <= clamp_scale_factor x)%Q /\ (clamp_scale_factor x <= 95 # 100)%Q.
Proof.
  rewrite clamp_scale_factor_cases.
  change (lit_0_7 <? lit_0_95)%sc with true.
  change (@lit_0_95 Q _) with (95 # 100)%Q.
  change (@lit_0_7 Q _) with (7 # 10)%Q.
  change (@fltb Q _) with Qltb.
  destruct (Qltb (95 # 100) x) eqn:E95.
  - split; [discriminate|apply Qle_refl].
  - apply Qltb_false in E95.
    destruct (Qltb (7 # 10) x) eqn:E7.
    + apply Qltb_true in E7. split; [now apply Qlt_le_weak|assumption].
    + split; [apply Qle_refl|discriminate].
Qed.

(** The centre is the point the scaling leaves in place. *)
Lemma scale_row_fixes_center (c : row3 Q) (s : Q) :
  row_Qeq (scale_row c s c) c.
Proof.
  destruct c as [[cx cy] cz].
  unfold row_Qeq, scale_row. cbn [fsub fadd fmul Q_Scalar].
  repeat split; ring.
Qed.

(** Scaling a row about [c] by a nonzero factor and scaling it back. *)
Lemma unscale_scale_row (c v : row3 Q) (s : Q) :
  ~ (s == 0)%Q -> row_Qeq (unscale_row c s (scale_row c s v)) v.
Proof.
  intros Hs. destruct v as [[x y] z], c as [[cx cy] cz].
  unfold row_Qeq, unscale_row, scale_row. cbn [fsub fadd fmul fdiv Q_Scalar].
  repeat split; field; assumption.
Qed.

(** ** Scaling in exact arithmetic *)

(** The vector between two scaled rows is the vector between the rows,
    times the factor. *)
Lemma scale_row_difference (c u v : row3 Q) (s : Q) :
  row_Qeq (row_sub (scale_row c s u) (scale_row c s v))
    (row_times s (row_sub u v)).
Proof.
  destruct u as [[x y] z], v as [[x' y'] z'], c as [[cx cy] cz].
  unfold row_Qeq, row_times, row_sub, scale_row.
  cbn [fsub fadd fmul Q_Scalar]. repeat split; ring.
Qed.

Lemma dist2_scale_row (c u v : row3 Q) (s : Q) :
  (dist2 (scale_row c s u) (scale_row c s v) == s * s * dist2 u v)%Q.
Proof.
  destruct u as [[x y] z], v as [[x' y'] z'], c as [[cx cy] cz].
  unfold dist2, row_sub, scale_row.
  cbn [fsub fadd fmul Q_Scalar]. ring.
Qed.

Lemma Qsquare_nonneg (a : Q) : (0 <= a * a)%Q.
Proof. nra. Qed.

Lemma Qsquare_pos (a b : Q) : ~ (a == b)%Q -> (0 < (a - b) * (a - b))%Q.
Proof.
  intros Hne. destruct (Q_dec a b) as [[Hlt|Hgt]|Heq]; [nra|nra|].
  now exfalso.
Qed.

Lemma dist2_pos (u v : row3 Q) : ~ row_Qeq u v -> (0 < dist2 u v)%Q.
Proof.
  destruct u as [[x y] z], v as [[x' y'] z'].
  unfold row_Qeq, dist2, row_sub. cbn [fsub Q_Scalar]. intros Hne.
  pose proof (Qsquare_nonneg (x - x')) as Hx.
  pose proof (Qsquare_nonneg (y - y')) as Hy.
  pose proof (Qsquare_nonneg (z - z')) as Hz.
  destruct (Qeq_dec x x') as [Ex|Ex];
    [|pose proof (Qsquare_pos x x' Ex); lra].
  destruct (Qeq_dec y y') as [Ey|Ey];
    [|pose proof (Qsquare_pos y y' Ey); lra].
  destruct (Qeq_dec z z') as [Ez|Ez];
    [|pose proof (Qsquare_pos z z' Ez); lra].
  exfalso. apply Hne. repeat split; assumption.
Qed.

(** A factor in [0.7, 0.95] brings two distinct rows strictly closer and
    keeps them apart. *)
Lemma scale_row_contracts (c u v : row3 Q) (s : Q) :
  (7 # 10 <= s)%Q -> (s <= 95 # 100)%Q -> ~ row_Qeq u v ->
  (0 < dist2 (scale_row c s u) (scale_row c s v))%Q
  /\ (dist2 (scale_row c s u) (scale_row c s v) < dist2 u v)%Q.
Proof.
  intros Hlo Hhi Hne. rewrite dist2_scale_row.
  pose proof (dist2_pos u v Hne) as Hpos.
  assert (Hsq : (49 # 100 <= s * s)%Q /\ (s * s <= 9025 # 10000)%Q)
    by (split; nra).
  split; nra.
Qed.

(** ** The hollow mesh and the store *)

Section Shape.
Context {F : Type} `{Scalar F} {World : Type}.
Variable lib : Library F World.

(** C2.  Whenever the input loads and has a bounding box, the run calls
    [export] once, with a mesh whose vertices are the loaded vertices
    followed by those of the inner mesh, and whose faces are the loaded
    faces followed by those of the inner mesh moved up by the number of
    loaded vertices: twice the vertices, twice the faces, nothing merged. *)
Theorem hollow_mesh_is_outer_then_inner
    st input_file output_file wall_thickness m box :
  trimesh_load_mesh lib input_file (world st) = Some m ->
  bounds lib m = Some box ->
  let inner :=
    inner_mesh_of lib m (scale_factor (min_dim box) wall_thickness) in
  exists hollow,
    exported
      (output_of (make_hollow lib input_file output_file wall_thickness) st)
    = [(output_file, hollow)]
    /\ vertices hollow = vertices m ++ vertices inner
    /\ faces hollow
       = faces m
         ++ map (offset_face (Z.of_nat (length (vertices m)))) (faces inner)
    /\ length (vertices hollow) = 2 * length (vertices m)
    /\ length (faces hollow) = 2 * length (faces m).
Proof.
  intros Hload Hb inner.
  exists (hollow_mesh_of lib m (scale_factor (min_dim box) wall_thickness)).
  split; [now apply make_hollow_exported|].
  unfold hollow_mesh_of. fold inner. rewrite concatenate_two.
  cbn [vertices faces].
  repeat split.
  - rewrite length_app. unfold inner, inner_mesh_of, scale_vertices.
    cbn [vertices]. rewrite length_map. lia.
  - rewrite length_app, length_map. unfold inner, inner_mesh_of, fliplr.
    cbn [faces]. rewrite length_map. lia.
Qed.

(** C3.  Face [i] of the inner mesh lists the indices of face [i] of the
    loaded mesh in reverse order; in the exported mesh it is face
    [length (faces m) + i], with the indices moved up by the number of
    loaded vertices. *)
Theorem inner_faces_are_reversed
    st input_file output_file wall_thickness m box :
  trimesh_load_mesh lib input_file (world st) = Some m ->
  bounds lib m = Some box ->
  let inner :=
    inner_mesh_of lib m (scale_factor (min_dim box) wall_thickness) in
  let n := Z.of_nat (length (vertices m)) in
  exists inner_mesh hollow,
    heap (snd (make_hollow lib input_file output_file wall_thickness st))
      !! inner_mesh = Some inner
    /\ exported
         (output_of (make_hollow lib input_file output_file wall_thickness) st)
       = [(output_file, hollow)]
    /\ length (faces inner) = length (faces m)
    /\ forall i a b c,
         faces m !! i = Some (a, b, c) ->
         faces inner !! i = Some (c, b, a)
         /\ faces hollow !! (length (faces m) + i)
            = Some (c + n, b + n, a + n)%Z.
Proof.
  intros Hload Hb inner n.
  destruct (make_hollow_store lib st input_file output_file wall_thickness
              m box Hload Hb) as (_ & _ & Hinner & _).
  eexists.
  exists (hollow_mesh_of lib m (scale_factor (min_dim box) wall_thickness)).
  split; [exact Hinner|].
  split; [now apply make_hollow_exported|].
  assert (Hflip : forall i a b c, faces m !! i = Some (a, b, c) ->
                                  faces inner !! i = Some (c, b, a)).
  { intros i a b c Hi. unfold inner, inner_mesh_of. cbn [faces].
    now apply fliplr_lookup. }
  split.
  { unfold inner, inner_mesh_of, fliplr. cbn [faces]. apply length_map. }
  intros i a b c Hi. split; [now apply Hflip|].
  unfold hollow_mesh_of. fold inner. rewrite concatenate_two. cbn [faces].
  etransitivity; [apply lookup_app_plus|].
  exact (lookup_map _ _ _ _ (Hflip i a b c Hi)).
Qed.

(** Every loaded vertex [v] stays where it was in the exported mesh, and
    its image [(v - centroid) * scale + centroid] stands one mesh further;
    in binary64 as in exact arithmetic. *)
Lemma inner_vertices_are_scaled
    st input_file output_file wall_thickness m box :
  trimesh_load_mesh lib input_file (world st) = Some m ->
  bounds lib m = Some box ->
  let s := scale_factor (min_dim box) wall_thickness in
  exists hollow,
    exported
      (output_of (make_hollow lib input_file output_file wall_thickness) st)
    = [(output_file, hollow)]
    /\ forall k v,
         vertices m !! k = Some v ->
         vertices hollow !! k = Some v
         /\ vertices hollow !! (length (vertices m) + k)
            = Some (scale_row (centroid lib m) s v).
Proof.
  intros Hload Hb s.
  exists (hollow_mesh_of lib m s).
  split; [now apply make_hollow_exported|].
  intros k v Hk. unfold hollow_mesh_of. rewrite concatenate_two.
  cbn [vertices inner_mesh_of]. split.
  - now apply lookup_app_l_Some.
  - etransitivity; [apply lookup_app_plus|].
    exact (lookup_map _ _ _ _ Hk).
Qed.

(** C7.  The object [load_mesh] creates holds the loaded vertices and
    faces when the run ends, whether it ends normally or not; the scaled
    vertices and the flipped faces are those of another object, the copy;
    and no object that existed before the call is changed. *)
Theorem original_mesh_is_never_mutated
    st input_file output_file wall_thickness m :
  trimesh_load_mesh lib input_file (world st) = Some m ->
  let st' := snd (make_hollow lib input_file output_file wall_thickness st) in
  exists mesh,
    fst (load_mesh lib input_file st) = Ok mesh
    /\ heap st' !! mesh = Some m
    /\ (forall l, l ∈ dom (heap st) -> heap st' !! l = heap st !! l)
    /\ (forall box,
          bounds lib m = Some box ->
          exists inner_mesh,
            inner_mesh <> mesh
            /\ heap st' !! inner_mesh
               = Some (inner_mesh_of lib m
                         (scale_factor (min_dim box) wall_thickness))).
Proof.
  intros Hload st'. exists (fresh (dom (heap st))).
  split; [now rewrite (run_load_mesh lib _ _ m Hload)|].
  destruct (bounds lib m) as [box|] eqn:Hb.
  - destruct (make_hollow_store lib st input_file output_file wall_thickness
                m box Hload Hb) as (Hne & Hm & Hi & Hold).
    split; [exact Hm|]. split; [exact Hold|].
    intros box' [= <-]. eexists. split; [|exact Hi].
    apply not_eq_sym, Hne.
  - subst st'.
    rewrite (make_hollow_run_no_bounds lib _ _ _ _ m Hload Hb).
    cbn [snd heap]. split; [apply lookup_insert_eq|].
    split; [|discriminate].
    intros l Hl. apply elem_of_dom in Hl as [x Hx].
    rewrite lookup_insert_ne; [reflexivity|].
    apply not_eq_sym, (fresh_ne (heap st) l x Hx).
Qed.

(** C8.  The answer of the watertightness check reaches the console and
    nothing else: the run with another check ends alike, leaves the same
    store and the same world, makes the same calls of [export] and prints
    the same lines but for the answer; and a run whose input loads and has
    a bounding box prints the answer and calls [export], whatever the
    answer. *)
Theorem watertightness_is_only_reported
    (check : Trimesh F -> bool) st input_file output_file wall_thickness :
  let run := make_hollow lib input_file output_file wall_thickness in
  let run' :=
    make_hollow (with_is_watertight lib check)
      input_file output_file wall_thickness in
  fst (run st) = fst (run' st)
  /\ heap (snd (run st)) = heap (snd (run' st))
  /\ world (snd (run st)) = world (snd (run' st))
  /\ exported (output_of run st) = exported (output_of run' st)
  /\ map blot_watertight (output_of run st)
     = map blot_watertight (output_of run' st)
  /\ forall m box,
       trimesh_load_mesh lib input_file (world st) = Some m ->
       bounds lib m = Some box ->
       let hollow :=
         hollow_mesh_of lib m (scale_factor (min_dim box) wall_thickness) in
       In (Printed (IsWatertight (is_watertight lib m))) (output_of run st)
       /\ exported (output_of run st) = [(output_file, hollow)]
       /\ fst (run st)
          = (if snd (trimesh_export lib hollow output_file (world st))
             then Ok tt else Raise ExportFailure).
Proof.
  intros run run'.
  assert (Hsame :
    fst (run st) = fst (run' st)
    /\ heap (snd (run st)) = heap (snd (run' st))
    /\ world (snd (run st)) = world (snd (run' st))
    /\ exported (output_of run st) = exported (output_of run' st)
    /\ map blot_watertight (output_of run st)
       = map blot_watertight (output_of run' st)).
  { unfold output_of, run, run'.
    destruct (trimesh_load_mesh lib input_file (world st)) as [m|] eqn:Hload.
    - destruct (bounds lib m) as [box|] eqn:Hb.
      + rewrite (make_hollow_run lib _ _ _ _ m box Hload Hb).
        rewrite (make_hollow_run (with_is_watertight lib check)
                   _ _ _ _ m box Hload Hb).
        cbv zeta. cbn [fst snd heap world events].
        rewrite !drop_app_length.
        repeat split;
          destruct (snd (trimesh_export lib _ output_file (world st)));
          reflexivity.
      + rewrite (make_hollow_run_no_bounds lib _ _ _ _ m Hload Hb).
        rewrite (make_hollow_run_no_bounds (with_is_watertight lib check)
                   _ _ _ _ m Hload Hb).
        cbn [fst snd heap world events]. rewrite !drop_app_length.
        repeat split.
    - rewrite (make_hollow_run_load_fails lib _ _ _ _ Hload).
      rewrite (make_hollow_run_load_fails (with_is_watertight lib check)
                 _ _ _ _ Hload).
      cbn [fst snd heap world events]. repeat split. }
  destruct Hsame as (Hres & Hheap & Hworld & Hcalls & Hlines).
  repeat (split; [assumption|]).
  intros m box Hload Hb hollow. subst run. split; [|split].
  - rewrite (make_hollow_output lib _ _ _ _ m box Hload Hb). cbn. tauto.
  - now apply make_hollow_exported.
  - now apply make_hollow_result.
Qed.

(** C9, as the code has it.  A run that raises was stopped by
    [load_mesh], by the missing bounding box or by [export], and is not
    tried again.  In the first two cases [export] was never called and the
    world is as it was.  In the last case [export] was called once and the
    world is the one that failed call left; the closing line was not
    printed. *)
Theorem failure_before_export_writes_nothing
    st input_file output_file wall_thickness e :
  let run := make_hollow lib input_file output_file wall_thickness in
  fst (run st) = Raise e ->
  (e = LoadFailure \/ e = NoneNotSubscriptable \/ e = ExportFailure)
  /\ (e <> ExportFailure ->
      world (snd (run st)) = world st /\ exported (output_of run st) = [])
  /\ (e = ExportFailure ->
      exists hollow,
        exported (output_of run st) = [(output_file, hollow)]
        /\ trimesh_export lib hollow output_file (world st)
           = (world (snd (run st)), false))
  /\ ~ In (Printed Done) (output_of run st).
Proof.
  intros run. unfold output_of, run.
  destruct (trimesh_load_mesh lib input_file (world st)) as [m|] eqn:Hload.
  - destruct (bounds lib m) as [box|] eqn:Hb.
    + rewrite (make_hollow_run lib _ _ _ _ m box Hload Hb).
      cbv zeta. cbn [fst snd heap world events]. rewrite drop_app_length.
      destruct (trimesh_export lib _ output_file (world st)) as [w ok] eqn:Hout.
      cbn [fst snd]. destruct ok; [discriminate|].
      intros [= <-].
      split; [auto|]. split; [intros Hne; now contradiction Hne|].
      split; [intros _; eexists; split; [reflexivity|exact Hout]|].
      cbn. intros Hin. repeat destruct Hin as [Hin|Hin]; discriminate || auto.
    + rewrite (make_hollow_run_no_bounds lib _ _ _ _ m Hload Hb).
      cbn [fst snd heap world events]. rewrite drop_app_length.
      intros [= <-].
      split; [auto|]. split; [intros _; split; reflexivity|].
      split; [discriminate|].
      cbn. intros Hin. repeat destruct Hin as [Hin|Hin]; discriminate || auto.
  - rewrite (make_hollow_run_load_fails lib _ _ _ _ Hload).
    cbn [fst snd heap world events]. rewrite drop_app_length.
    intros [= <-].
    split; [auto|]. split; [intros _; split; reflexivity|].
    split; [discriminate|].
    cbn. intros Hin. repeat destruct Hin as [Hin|Hin]; discriminate || auto.
Qed.

End Shape.

(** ** Exact arithmetic *)

Section Exact.
Context {World : Type}.
Variable lib : Library Q World.

(** C4.  In exact arithmetic: the exported mesh keeps every loaded vertex
    [v] at its index [k] and holds [(v - centroid) * scale + centroid] at
    index [length (vertices m) + k]; mapping that inner vertex back by
    [(v' - centroid) / scale + centroid] gives [v] again. *)
Theorem inner_vertices_scale_back
    st input_file output_file wall_thickness m box :
  trimesh_load_mesh lib input_file (world st) = Some m ->
  bounds lib m = Some box ->
  let s := scale_factor (min_dim box) wall_thickness in
  let c := centroid lib m in
  exists hollow,
    exported
      (output_of (make_hollow lib input_file output_file wall_thickness) st)
    = [(output_file, hollow)]
    /\ forall k v,
         vertices m !! k = Some v ->
         vertices hollow !! k = Some v
         /\ vertices hollow !! (length (vertices m) + k)
            = Some (scale_row c s v)
         /\ row_Qeq (unscale_row c s (scale_row c s v)) v.
Proof.
  intros Hload Hb s c.
  destruct (inner_vertices_are_scaled lib st input_file output_file
              wall_thickness m box Hload Hb) as (hollow & Hcall & Hvs).
  exists hollow. split; [exact Hcall|].
  intros k v Hk. destruct (Hvs k v Hk) as [Houter Hinner].
  split; [exact Houter|]. split; [exact Hinner|].
  - apply unscale_scale_row. unfold s, scale_factor.
    destruct (clamp_scale_factor_Q_range
                (raw_scale_factor (min_dim box) wall_thickness)) as [Hlo _].
    intros E. rewrite E in Hlo. apply Qle_not_lt in Hlo. apply Hlo.
    reflexivity.
Qed.

End Exact.

(** In binary64 the way back is not exact: scaled about the origin by 0.7
    and scaled back, 0.1 comes back as the float just below it. *)
Example scale_back_is_inexact_in_binary64 :
  unscale_row (0, 0, 0)%float 0.7%float
    (scale_row (0, 0, 0)%float 0.7%float (0.1, 0.1, 0.1)%float)
  = (0.099999999999999992, 0.099999999999999992, 0.099999999999999992)%float
  /\ (0.099999999999999992 <? 0.1)%float = true.
Proof. split; vm_compute; reflexivity. Qed.

(** ** The scale factor in binary64 *)

Section Binary64.
Context {World : Type}.
Variable lib : Library float World.

(** C1.  The scale factor a run prints and uses is the raw factor
    [(min_dim - 2 * wall_thickness) / min_dim] put through the clamp: 0.95
    when the raw factor is above 0.95, the raw factor when it is within
    [0.7, 0.95], and 0.7 when it is below 0.7; it always lies in
    [0.7, 0.95].  On a bounding box of dimensions 1 x 1 x 1 the factor is
    0.8 for a wall of 0.1, 0.7 for a wall of 0.3 and 0.95 for a wall of
    0.001, exactly.  (Holds for every [min_dim], positive or not.) *)
Theorem scale_factor_is_clamped_raw_factor
    st input_file output_file wall_thickness m box :
  trimesh_load_mesh lib input_file (world st) = Some m ->
  bounds lib m = Some box ->
  let s_raw := raw_scale_factor (min_dim box) wall_thickness in
  let s := clamp_scale_factor s_raw in
  scale_factors_printed
    (output_of (make_hollow lib input_file output_file wall_thickness) st)
  = [s]
  /\ exported
       (output_of (make_hollow lib input_file output_file wall_thickness) st)
     = [(output_file, hollow_mesh_of lib m s)]
  /\ s_raw = ((min_dim box - 2 * wall_thickness) / min_dim box)%float
  /\ s = (if (0.95 <? s_raw)%float then 0.95%float
          else if (0.7 <? s_raw)%float then s_raw else 0.7%float)
  /\ ((s_raw <? 0.7)%float = true -> s = 0.7%float)
  /\ ((0.95 <? s_raw)%float = true -> s = 0.95%float)
  /\ ((0.7 <=? s_raw)%float = true -> (s_raw <=? 0.95)%float = true ->
      s = s_raw)
  /\ (0.7 <=? s)%float = true
  /\ (s <=? 0.95)%float = true
  /\ (dimensions box = (1, 1, 1)%float ->
      (wall_thickness = 0.1%float -> s = 0.8%float)
      /\ (wall_thickness = 0.3%float -> s = 0.7%float)
      /\ (wall_thickness = 0.001%float -> s = 0.95%float)).
Proof.
  intros Hload Hb s_raw s.
  split; [exact (make_hollow_scale_factor_printed lib _ _ _ _ m box Hload Hb)|].
  split; [exact (make_hollow_exported lib _ _ _ _ m box Hload Hb)|].
  split; [reflexivity|].
  split; [apply clamp_scale_factor_float|].
  split; [apply clamp_scale_factor_below|].
  split; [apply clamp_scale_factor_above|].
  split; [apply clamp_scale_factor_within|].
  split; [apply clamp_scale_factor_range|].
  split; [apply clamp_scale_factor_range|].
  intros Hdim. unfold s, s_raw, min_dim. rewrite Hdim.
  repeat split; intros ->; vm_compute; reflexivity.
Qed.

(** C10, as the code has it.  No wall thickness is refused: whatever
    number it is (zero, negative, huge, infinite, a NaN), a run whose input
    loads and has a bounding box gets as far as [export] and ends as
    [export] ends; the scale factor it prints and uses lies in [0.7, 0.95],
    and inner vertex [k] of the exported mesh is
    [(v - centroid) * scale + centroid] for vertex [k] of the loaded mesh.
    In exact arithmetic, for a positive least dimension, that map makes the
    inner shell the outer shell scaled by a factor in [0.7, 0.95]: the
    vector between two inner vertices is the vector between the outer ones
    times the factor, so it points the same way; two distinct vertices stay
    distinct and come strictly closer. *)
Theorem wall_thickness_is_never_validated
    st input_file output_file wall_thickness m box :
  trimesh_load_mesh lib input_file (world st) = Some m ->
  bounds lib m = Some box ->
  let s := scale_factor (min_dim box) wall_thickness in
  let hollow := hollow_mesh_of lib m s in
  fst (make_hollow lib input_file output_file wall_thickness st)
  = (if snd (trimesh_export lib hollow output_file (world st))
     then Ok tt else Raise ExportFailure)
  /\ exported
       (output_of (make_hollow lib input_file output_file wall_thickness) st)
     = [(output_file, hollow)]
  /\ scale_factors_printed
       (output_of (make_hollow lib input_file output_file wall_thickness) st)
     = [s]
  /\ (0.7 <=? s)%float = true
  /\ (s <=? 0.95)%float = true
  /\ (0 <? s)%float = true
  /\ (s <? 1)%float = true
  /\ (forall k v,
        vertices m !! k = Some v ->
        vertices hollow !! k = Some v
        /\ vertices hollow !! (length (vertices m) + k)
           = Some (scale_row (centroid lib m) s v))
  /\ (forall (d wt : Q) (c u v : row3 Q),
        (0 < d)%Q ->
        let sQ := scale_factor d wt in
        let u' := scale_row c sQ u in
        let v' := scale_row c sQ v in
        (7 # 10 <= sQ)%Q /\ (sQ <= 95 # 100)%Q
        /\ row_Qeq (row_sub u' v') (row_times sQ (row_sub u v))
        /\ row_Qeq (row_sub u' c) (row_times sQ (row_sub u c))
        /\ (dist2 u' v' == sQ * sQ * dist2 u v)%Q
        /\ (~ row_Qeq u v ->
            (0 < dist2 u' v')%Q /\ (dist2 u' v' < dist2 u v)%Q)).
Proof.
  intros Hload Hb s hollow.
  split; [exact (make_hollow_result lib _ _ _ _ m box Hload Hb)|].
  split; [exact (make_hollow_exported lib _ _ _ _ m box Hload Hb)|].
  split; [exact (make_hollow_scale_factor_printed lib _ _ _ _ m box Hload Hb)|].
  split; [apply clamp_scale_factor_range|].
  split; [apply clamp_scale_factor_range|].
  split; [apply clamp_scale_factor_contracts|].
  split; [apply clamp_scale_factor_contracts|].
  split.
  - intros k v Hk. unfold hollow, hollow_mesh_of. rewrite concatenate_two.
    cbn [vertices inner_mesh_of]. split.
    + now apply lookup_app_l_Some.
    + etransitivity; [apply lookup_app_plus|].
      exact (lookup_map _ _ _ _ Hk).
  - intros d wt c u v Hd sQ u' v'.
    destruct (clamp_scale_factor_Q_range (raw_scale_factor d wt))
      as [Hlo Hhi].
    fold (scale_factor d wt) in Hlo, Hhi. fold sQ in Hlo, Hhi.
    split; [exact Hlo|]. split; [exact Hhi|].
    split; [apply scale_row_difference|].
    split.
    + pose proof (scale_row_difference c u c sQ) as Hd'.
      pose proof (scale_row_fixes_center c sQ) as Hc.
      fold u' in Hd'. clear -Hd' Hc.
      destruct u' as [[x1 y1] z1], (scale_row c sQ c) as [[x2 y2] z2],
        u as [[x y] z], c as [[cx cy] cz].
      unfold row_Qeq, row_times, row_sub in *. cbn [fsub Q_Scalar] in *.
      destruct Hd' as (H1 & H2 & H3), Hc as (C1 & C2 & C3).
      repeat split; lra.
    + split; [apply dist2_scale_row|].
      intros Hne. now apply scale_row_contracts.
Qed.

(** C6, as the code has it.  A bounding box with a zero dimension stops
    nothing: the division by zero raises no exception but yields an
    infinity or a NaN, which the clamp turns into 0.7 or 0.95; the hollow
    mesh is built with that factor and handed to [export], and the run
    ends as [export] ends. *)
Theorem flat_mesh_is_not_rejected
    st input_file output_file wall_thickness m box :
  trimesh_load_mesh lib input_file (world st) = Some m ->
  bounds lib m = Some box ->
  (min_dim box =? 0)%float = true ->
  let s := scale_factor (min_dim box) wall_thickness in
  let hollow := hollow_mesh_of lib m s in
  (s = 0.7%float \/ s = 0.95%float)
  /\ fst (make_hollow lib input_file output_file wall_thickness st)
     = (if snd (trimesh_export lib hollow output_file (world st))
        then Ok tt else Raise ExportFailure)
  /\ exported
       (output_of (make_hollow lib input_file output_file wall_thickness) st)
     = [(output_file, hollow)]
  /\ scale_factors_printed
       (output_of (make_hollow lib input_file output_file wall_thickness) st)
     = [s].
Proof.
  intros Hload Hb Hzero s hollow.
  split; [now apply clamp_scale_factor_div_zero|].
  split; [exact (make_hollow_result lib _ _ _ _ m box Hload Hb)|].
  split; [exact (make_hollow_exported lib _ _ _ _ m box Hload Hb)|].
  exact (make_hollow_scale_factor_printed lib _ _ _ _ m box Hload Hb).
Qed.

End Binary64.

(** ** The theorems at work on concrete meshes *)

Lemma scale_factor_is_clamped_raw_factor_witness :
  let box := ((0, 0, 0), (1, 1, 1))%float in
  let run := make_hollow (stand_in true) "cube.stl" "hollow.stl" 0.1%float in
  let s_raw := raw_scale_factor (min_dim box) 0.1%float in
  let s := clamp_scale_factor s_raw in
  scale_factors_printed (output_of run (fresh_state cube_files)) = [s]
  /\ exported (output_of run (fresh_state cube_files))
     = [("hollow.stl", hollow_mesh_of (stand_in true) unit_cube s)]
  /\ s_raw = ((min_dim box - 2 * 0.1) / min_dim box)%float
  /\ s = (if (0.95 <? s_raw)%float then 0.95%float
          else if (0.7 <? s_raw)%float then s_raw else 0.7%float)
  /\ ((s_raw <? 0.7)%float = true -> s = 0.7%float)
  /\ ((0.95 <? s_raw)%float = true -> s = 0.95%float)
  /\ ((0.7 <=? s_raw)%float = true -> (s_raw <=? 0.95)%float = true ->
      s = s_raw)
  /\ (0.7 <=? s)%float = true
  /\ (s <=? 0.95)%float = true
  /\ (dimensions box = (1, 1, 1)%float ->
      (0.1%float = 0.1%float -> s = 0.8%float)
      /\ (0.1%float = 0.3%float -> s = 0.7%float)
      /\ (0.1%float = 0.001%float -> s = 0.95%float)).
Proof.
  apply (scale_factor_is_clamped_raw_factor (stand_in true)
           (fresh_state cube_files) "cube.stl" "hollow.stl" 0.1%float
           unit_cube ((0, 0, 0), (1, 1, 1))%float).
  - vm_compute. reflexivity.
  - vm_compute. reflexivity.
Defined.

Lemma hollow_mesh_is_outer_then_inner_witness :
  let inner :=
    inner_mesh_of (stand_in true) unit_cube
      (scale_factor (min_dim ((0, 0, 0), (1, 1, 1))%float) 0.1%float) in
  exists hollow,
    exported
      (output_of (make_hollow (stand_in true) "cube.stl" "hollow.stl" 0.1%float)
         (fresh_state cube_files))
    = [("hollow.stl", hollow)]
    /\ vertices hollow = vertices unit_cube ++ vertices inner
    /\ faces hollow
       = faces unit_cube
         ++ map (offset_face (Z.of_nat (length (vertices unit_cube))))
              (faces inner)
    /\ length (vertices hollow) = 2 * length (vertices unit_cube)
    /\ length (faces hollow) = 2 * length (faces unit_cube).
Proof.
  apply (hollow_mesh_is_outer_then_inner (stand_in true)
           (fresh_state cube_files) "cube.stl" "hollow.stl" 0.1%float
           unit_cube ((0, 0, 0), (1, 1, 1))%float).
  - vm_compute. reflexivity.
  - vm_compute. reflexivity.
Defined.

Lemma inner_faces_are_reversed_witness :
  let inner :=
    inner_mesh_of (stand_in true) unit_cube
      (scale_factor (min_dim ((0, 0, 0), (1, 1, 1))%float) 0.1%float) in
  let n := Z.of_nat (length (vertices unit_cube)) in
  exists inner_mesh hollow,
    heap (snd (make_hollow (stand_in true) "cube.stl" "hollow.stl" 0.1%float
                 (fresh_state cube_files)))
      !! inner_mesh = Some inner
    /\ exported
         (output_of
            (make_hollow (stand_in true) "cube.stl" "hollow.stl" 0.1%float)
            (fresh_state cube_files))
       = [("hollow.stl", hollow)]
    /\ length (faces inner) = length (faces unit_cube)
    /\ forall i a b c,
         faces unit_cube !! i = Some (a, b, c) ->
         faces inner !! i = Some (c, b, a)
         /\ faces hollow !! (length (faces unit_cube) + i)
            = Some (c + n, b + n, a + n)%Z.
Proof.
  apply (inner_faces_are_reversed (stand_in true)
           (fresh_state cube_files) "cube.stl" "hollow.stl" 0.1%float
           unit_cube ((0, 0, 0), (1, 1, 1))%float).
  - vm_compute. reflexivity.
  - vm_compute. reflexivity.
Defined.

Lemma inner_vertices_scale_back_witness :
  let s := scale_factor (min_dim ((0, 0, 0), (1, 1, 1))%Q) (1 # 10)%Q in
  let c := centroid (stand_in true) unit_cube_Q in
  exists hollow,
    exported
      (output_of (make_hollow (stand_in true) "cube.stl" "hollow.stl" (1 # 10)%Q)
         (fresh_state cube_files_Q))
    = [("hollow.stl", hollow)]
    /\ forall k v,
         vertices unit_cube_Q !! k = Some v ->
         vertices hollow !! k = Some v
         /\ vertices hollow !! (length (vertices unit_cube_Q) + k)
            = Some (scale_row c s v)
         /\ row_Qeq (unscale_row c s (scale_row c s v)) v.
Proof.
  apply (inner_vertices_scale_back (stand_in true)
           (fresh_state cube_files_Q) "cube.stl" "hollow.stl" (1 # 10)%Q
           unit_cube_Q ((0, 0, 0), (1, 1, 1))%Q).
  - vm_compute. reflexivity.
  - vm_compute. reflexivity.
Defined.

Lemma wall_thickness_is_never_validated_witness :
  let run := make_hollow (stand_in true) "cube.stl" "hollow.stl" (-3)%float in
  let s := scale_factor (min_dim ((0, 0, 0), (1, 1, 1))%float) (-3)%float in
  let hollow := hollow_mesh_of (stand_in true) unit_cube s in
  let sQ := scale_factor 1%Q (-3)%Q in
  let c := (1 # 2, 1 # 2, 1 # 2)%Q in
  let u' := scale_row c sQ (0, 0, 0)%Q in
  let v' := scale_row c sQ (1, 1, 1)%Q in
  fst (run (fresh_state cube_files)) = Ok tt
  /\ exported (output_of run (fresh_state cube_files))
     = [("hollow.stl", hollow)]
  /\ scale_factors_printed (output_of run (fresh_state cube_files)) = [s]
  /\ (0.7 <=? s)%float = true
  /\ (s <=? 0.95)%float = true
  /\ vertices hollow !! (length (vertices unit_cube) + 6)
     = Some (scale_row (centroid (stand_in true) unit_cube) s (1, 1, 1)%float)
  /\ (7 # 10 <= sQ)%Q /\ (sQ <= 95 # 100)%Q
  /\ row_Qeq (row_sub u' v') (row_times sQ (row_sub (0, 0, 0) (1, 1, 1))%Q)
  /\ (0 < dist2 u' v')%Q
  /\ (dist2 u' v' < dist2 (0, 0, 0) (1, 1, 1))%Q.
Proof.
  destruct (wall_thickness_is_never_validated (stand_in true)
              (fresh_state cube_files) "cube.stl" "hollow.stl" (-3)%float
              unit_cube ((0, 0, 0), (1, 1, 1))%float
              ltac:(vm_compute; reflexivity) ltac:(vm_compute; reflexivity))
    as (Hres & Hexp & Hprint & Hlo & Hhi & _ & _ & Hvs & Hexact).
  destruct (Hexact 1%Q (-3)%Q (1 # 2, 1 # 2, 1 # 2)%Q (0, 0, 0)%Q (1, 1, 1)%Q
              ltac:(reflexivity))
    as (HloQ & HhiQ & Hdiff & _ & _ & Hcontr).
  destruct Hcontr as [Hpos Hlt].
  { vm_compute. intros (E & _ & _). discriminate E. }
  destruct (Hvs 6%nat (1, 1, 1)%float ltac:(vm_compute; reflexivity))
    as [_ Hinner].
  split; [rewrite Hres; vm_compute; reflexivity|].
  split; [exact Hexp|]. split; [exact Hprint|].
  split; [exact Hlo|]. split; [exact Hhi|].
  split; [exact Hinner|].
  split; [exact HloQ|]. split; [exact HhiQ|].
  split; [exact Hdiff|]. split; [exact Hpos|exact Hlt].
Defined.

(** C10, as the claim has it, fails in binary64: the cube of side 2 at
    [1e16] has the least dimension 2, and for the wall thickness 0.125 the
    scale factor is 0.875; yet every scaled vertex rounds back to the vertex
    it came from, so that the inner shell of the exported mesh is the outer
    shell, not a strictly smaller one.  The same happens whichever point of
    the bounding box is taken for the centroid: binary64 has no points in
    that box but the eight corners. *)
Lemma far_cube_inner_shell_is_the_outer_shell :
  let lib := stand_in true in
  let run := make_hollow lib "far.obj" "hollow.obj" 0.125%float in
  let st := fresh_state far_files in
  option_map min_dim (bounds lib far_cube) = Some 2%float
  /\ (0 <? 2)%float = true
  /\ scale_factor 2%float 0.125%float = 0.875%float
  /\ fst (run st) = Ok tt
  /\ scale_factors_printed (output_of run st) = [0.875%float]
  /\ exported (output_of run st)
     = [("hollow.obj", hollow_mesh_of lib far_cube 0.875%float)]
  /\ vertices (inner_mesh_of lib far_cube 0.875%float) = vertices far_cube
  /\ vertices (hollow_mesh_of lib far_cube 0.875%float)
     = vertices far_cube ++ vertices far_cube
  /\ (forall c : row3 float,
        In c (vertices far_cube) ->
        vertices
          (inner_mesh_of (with_centroid lib (fun _ => c)) far_cube
             0.875%float)
        = vertices far_cube).
Proof.
  cbv zeta.
  split; [vm_compute; reflexivity|]. split; [vm_compute; reflexivity|].
  split; [vm_compute; reflexivity|]. split; [vm_compute; reflexivity|].
  split; [vm_compute; reflexivity|]. split; [vm_compute; reflexivity|].
  split; [vm_compute; reflexivity|]. split; [vm_compute; reflexivity|].
  intros c Hin. cbn in Hin.
  repeat destruct Hin as [<-|Hin]; try contradiction;
    vm_compute; reflexivity.
Qed.

Lemma flat_mesh_is_not_rejected_witness :
  let run := make_hollow (stand_in false) "flat.stl" "hollow.stl" 2%float in
  let s := scale_factor (min_dim ((0, 0, 0), (1, 1, 0))%float) 2%float in
  let hollow := hollow_mesh_of (stand_in false) unit_square s in
  (s = 0.7%float \/ s = 0.95%float)
  /\ fst (run (fresh_state square_files))
     = (if snd (trimesh_export (stand_in false) hollow "hollow.stl"
                  (world (fresh_state square_files)))
        then Ok tt else Raise ExportFailure)
  /\ exported (output_of run (fresh_state square_files))
     = [("hollow.stl", hollow)]
  /\ scale_factors_printed (output_of run (fresh_state square_files)) = [s].
Proof.
  apply (flat_mesh_is_not_rejected (stand_in false)
           (fresh_state square_files) "flat.stl" "hollow.stl" 2%float
           unit_square ((0, 0, 0), (1, 1, 0))%float).
  - vm_compute. reflexivity.
  - vm_compute. reflexivity.
  - vm_compute. reflexivity.
Defined.

(** C6, as the claim has it, fails: the flat unit square, whose bounding
    box has height 0, is not rejected.  The raw factor is minus infinity,
    the clamp makes it 0.7, and the call returns normally with the hollow
    mesh written to the output path. *)
Lemma flat_square_is_hollowed :
  let run := make_hollow (stand_in false) "flat.stl" "hollow.stl" 2%float in
  let st := fresh_state square_files in
  option_map min_dim (bounds (stand_in false) unit_square) = Some 0%float
  /\ raw_scale_factor 0%float 2%float = neg_infinity
  /\ fst (run st) = Ok tt
  /\ scale_factors_printed (output_of run st) = [0.7%float]
  /\ exported (output_of run st)
     = [("hollow.stl", hollow_mesh_of (stand_in false) unit_square 0.7%float)]
  /\ world (snd (run st)) !! ("hollow.stl" : path)
     = Some (hollow_mesh_of (stand_in false) unit_square 0.7%float).
Proof.
  intros run st.
  split; [vm_compute; reflexivity|].
  split; [vm_compute; reflexivity|].
  split; [vm_compute; reflexivity|].
  split; [vm_compute; reflexivity|].
  split; [vm_compute; reflexivity|].
  vm_compute; reflexivity.
Qed.

Lemma original_mesh_is_never_mutated_witness :
  let st := fresh_state cube_files in
  let st' :=
    snd (make_hollow (stand_in true) "cube.stl" "hollow.stl" 0.1%float st) in
  exists mesh,
    fst (load_mesh (stand_in true) "cube.stl" st) = Ok mesh
    /\ heap st' !! mesh = Some unit_cube
    /\ (forall l, l ∈ dom (heap st) -> heap st' !! l = heap st !! l)
    /\ (forall box,
          bounds (stand_in true) unit_cube = Some box ->
          exists inner_mesh,
            inner_mesh <> mesh
            /\ heap st' !! inner_mesh
               = Some (inner_mesh_of (stand_in true) unit_cube
                         (scale_factor (min_dim box) 0.1%float))).
Proof.
  apply (original_mesh_is_never_mutated (stand_in true)
           (fresh_state cube_files) "cube.stl" "hollow.stl" 0.1%float
           unit_cube).
  vm_compute. reflexivity.
Defined.

Lemma failure_before_export_writes_nothing_witness :
  let run :=
    make_hollow (stand_in true) "missing.stl" "hollow.stl" 0.1%float in
  let st := fresh_state cube_files in
  (LoadFailure = LoadFailure \/ LoadFailure = NoneNotSubscriptable
   \/ LoadFailure = ExportFailure)
  /\ (LoadFailure <> ExportFailure ->
      world (snd (run st)) = world st /\ exported (output_of run st) = [])
  /\ (LoadFailure = ExportFailure ->
      exists hollow,
        exported (output_of run st) = [("hollow.stl", hollow)]
        /\ trimesh_export (stand_in true) hollow "hollow.stl" (world st)
           = (world (snd (run st)), false))
  /\ ~ In (Printed Done) (output_of run st).
Proof.
  apply (failure_before_export_writes_nothing (stand_in true)
           (fresh_state cube_files) "missing.stl" "hollow.stl" 0.1%float
           LoadFailure).
  vm_compute. reflexivity.
Defined.

(** C9, as the claim has it, fails: when [export] raises after it has
    written the vertices, the run raises too and the output path, which
    held nothing, holds the half-written mesh. *)
Lemma torn_export_leaves_a_partial_file :
  let run := make_hollow stand_in_torn "cube.stl" "hollow.stl" 0.1%float in
  let st := fresh_state cube_files in
  fst (run st) = Raise ExportFailure
  /\ world st !! ("hollow.stl" : path) = None
  /\ world (snd (run st)) !! ("hollow.stl" : path)
     = Some (mkTrimesh
               (vertices (hollow_mesh_of stand_in_torn unit_cube 0.8%float))
               [])
  /\ world (snd (run st)) <> world st.
Proof.
  intros run st.
  assert (Hbefore : world st !! ("hollow.stl" : path) = None)
    by (vm_compute; reflexivity).
  assert (Hafter :
    world (snd (run st)) !! ("hollow.stl" : path)
    = Some (mkTrimesh
              (vertices (hollow_mesh_of stand_in_torn unit_cube 0.8%float))
              []))
    by (vm_compute; reflexivity).
  split; [vm_compute; reflexivity|].
  split; [exact Hbefore|]. split; [exact Hafter|].
  intros E. rewrite E, Hbefore in Hafter. discriminate Hafter.
Qed.

(** ** The console, the entry point and the indices *)

Lemma hollow_mesh_of_lengths {F World : Type} `{Scalar F}
    (lib : Library F World) (m : Trimesh F) (s : F) :
  length (vertices (hollow_mesh_of lib m s)) = 2 * length (vertices m)
  /\ length (faces (hollow_mesh_of lib m s)) = 2 * length (faces m).
Proof.
  unfold hollow_mesh_of. rewrite concatenate_two. cbn [vertices faces].
  rewrite !length_app, length_map.
  unfold inner_mesh_of, scale_vertices, fliplr. cbn [vertices faces].
  rewrite !length_map. lia.
Qed.

Section Console.
Context {F : Type} `{Scalar F} {World : Type}.
Variable lib : Library F World.

(** X1.  A run whose input loads and has a bounding box and whose export
    returns ends normally and prints, in this order: the loading line, the
    header and the four diagnostics of the loaded mesh, the wall thickness
    and the scale factor, the combining line, the header and the two counts
    of the hollow mesh, which are twice those of the loaded mesh, the
    savings, the exporting line, and, after the one call of [export], the
    two closing lines. *)
Theorem successful_run_transcript
    st input_file output_file wall_thickness m box :
  trimesh_load_mesh lib input_file (world st) = Some m ->
  bounds lib m = Some box ->
  let s := scale_factor (min_dim box) wall_thickness in
  let hollow := hollow_mesh_of lib m s in
  snd (trimesh_export lib hollow output_file (world st)) = true ->
  fst (make_hollow lib input_file output_file wall_thickness st) = Ok tt
  /\ output_of (make_hollow lib input_file output_file wall_thickness) st
     = [ Printed (Loading input_file);
         Printed OriginalMesh;
         Printed (NVertices (length (vertices m)));
         Printed (NFaces (length (faces m)));
         Printed (VolumeIs (volume lib m));
         Printed (IsWatertight (is_watertight lib m));
         Printed (CreatingShell wall_thickness);
         Printed (ScaleFactorIs s);
         Printed Combining;
         Printed HollowMesh;
         Printed (NVertices (2 * length (vertices m)));
         Printed (NFaces (2 * length (faces m)));
         Printed (MaterialSavings s);
         Printed (Exporting output_file);
         Exported output_file hollow;
         Printed Done;
         Printed (ShouldSave s) ].
Proof.
  intros Hload Hb s hollow Hok.
  rewrite (make_hollow_result lib _ _ _ _ m box Hload Hb).
  rewrite (make_hollow_output lib _ _ _ _ m box Hload Hb).
  cbv zeta. fold s hollow. rewrite Hok. split; [reflexivity|].
  unfold lines_before_export.
  destruct (hollow_mesh_of_lengths lib m s) as [-> ->]. reflexivity.
Qed.

(** X2.  When the input does not load, the call raises the load error
    having printed the loading line and nothing else; no object is created
    and the world is as it was. *)
Theorem failed_load_prints_one_line
    st input_file output_file wall_thickness :
  trimesh_load_mesh lib input_file (world st) = None ->
  let run := make_hollow lib input_file output_file wall_thickness in
  fst (run st) = Raise LoadFailure
  /\ output_of run st = [Printed (Loading input_file)]
  /\ heap (snd (run st)) = heap st
  /\ world (snd (run st)) = world st.
Proof.
  intros Hload run. unfold output_of, run.
  rewrite (make_hollow_run_load_fails lib _ _ _ _ Hload).
  cbn [fst snd heap world events]. rewrite drop_app_length. repeat split.
Qed.

(** X4.  The script's entry point reads and writes the same path: it
    loads "Top.stl", and its one call of [export] hands the hollow mesh,
    built with the wall thickness 2.0, to "Top.stl" again; the world it
    leaves is the one that call left. *)
Theorem main_overwrites_its_input st m box :
  trimesh_load_mesh lib "Top.stl" (world st) = Some m ->
  bounds lib m = Some box ->
  let hollow := hollow_mesh_of lib m (scale_factor (min_dim box) lit_2) in
  In (Printed (Loading "Top.stl")) (output_of (main lib) st)
  /\ exported (output_of (main lib) st) = [("Top.stl", hollow)]
  /\ world (snd (main lib st))
     = fst (trimesh_export lib hollow "Top.stl" (world st))
  /\ length (vertices hollow) = 2 * length (vertices m).
Proof.
  intros Hload Hb hollow. unfold main.
  split; [|split; [|split]].
  - rewrite (make_hollow_output lib _ _ _ _ m box Hload Hb). cbn. tauto.
  - exact (make_hollow_exported lib _ _ _ _ m box Hload Hb).
  - now rewrite (make_hollow_run lib _ _ _ _ m box Hload Hb).
  - apply hollow_mesh_of_lengths.
Qed.

(** X12.  For a mesh that loads and has a bounding box, the number
    [mesh.volume] returns reaches the console and nothing else: had it been
    any other number, the run would end alike, leave the same store and the
    same world, hand the same mesh to [export], and print the same lines
    but for the volume line. *)
Theorem volume_is_only_reported
    (vol : Trimesh F -> F) st input_file output_file wall_thickness m box :
  trimesh_load_mesh lib input_file (world st) = Some m ->
  bounds lib m = Some box ->
  let run := make_hollow lib input_file output_file wall_thickness in
  let run' :=
    make_hollow (with_volume lib vol) input_file output_file wall_thickness in
  In (Printed (VolumeIs (volume lib m))) (output_of run st)
  /\ In (Printed (VolumeIs (vol m))) (output_of run' st)
  /\ fst (run st) = fst (run' st)
  /\ heap (snd (run st)) = heap (snd (run' st))
  /\ world (snd (run st)) = world (snd (run' st))
  /\ exported (output_of run st) = exported (output_of run' st)
  /\ exported (output_of run st)
     = [(output_file,
         hollow_mesh_of lib m (scale_factor (min_dim box) wall_thickness))]
  /\ without_volume (output_of run st) = without_volume (output_of run' st).
Proof.
  intros Hload Hb run run'. unfold run, run'.
  split; [rewrite (make_hollow_output lib _ _ _ _ m box Hload Hb);
          cbn; tauto|].
  split; [rewrite (make_hollow_output (with_volume lib vol) _ _ _ _ m box
                     Hload Hb); cbn; tauto|].
  split; [|split; [|split; [|split; [|split]]]].
  - rewrite (make_hollow_run lib _ _ _ _ m box Hload Hb).
    now rewrite (make_hollow_run (with_volume lib vol) _ _ _ _ m box Hload Hb).
  - rewrite (make_hollow_run lib _ _ _ _ m box Hload Hb).
    now rewrite (make_hollow_run (with_volume lib vol) _ _ _ _ m box Hload Hb).
  - rewrite (make_hollow_run lib _ _ _ _ m box Hload Hb).
    now rewrite (make_hollow_run (with_volume lib vol) _ _ _ _ m box Hload Hb).
  - rewrite (make_hollow_exported lib _ _ _ _ m box Hload Hb).
    now rewrite (make_hollow_exported (with_volume lib vol) _ _ _ _ m box
                   Hload Hb).
  - exact (make_hollow_exported lib _ _ _ _ m box Hload Hb).
  - rewrite (make_hollow_output lib _ _ _ _ m box Hload Hb).
    rewrite (make_hollow_output (with_volume lib vol) _ _ _ _ m box Hload Hb).
    cbv zeta.
    change (hollow_mesh_of (with_volume lib vol)) with (hollow_mesh_of lib).
    change (trimesh_export (with_volume lib vol)) with (trimesh_export lib).
    destruct (snd (trimesh_export lib _ output_file (world st)));
      reflexivity.
Qed.

(** X10.  Valid indices stay valid: when every face of the loaded mesh
    indexes its vertices, every face of the exported mesh indexes the
    exported vertices; the first half of the faces uses the first half of
    the vertices only, and the second half the second half only, so the two
    shells share no vertex. *)
Theorem hollow_faces_index_their_own_shell
    st input_file output_file wall_thickness m box :
  trimesh_load_mesh lib input_file (world st) = Some m ->
  bounds lib m = Some box ->
  let n := Z.of_nat (length (vertices m)) in
  forallb (face_within 0 n) (faces m) = true ->
  exists hollow,
    exported
      (output_of (make_hollow lib input_file output_file wall_thickness) st)
    = [(output_file, hollow)]
    /\ forallb (face_within 0 (Z.of_nat (length (vertices hollow))))
         (faces hollow) = true
    /\ forallb (face_within 0 n) (take (length (faces m)) (faces hollow))
       = true
    /\ forallb (face_within n (2 * n))
         (drop (length (faces m)) (faces hollow)) = true.
Proof.
  intros Hload Hb n Hin.
  exists (hollow_mesh_of lib m (scale_factor (min_dim box) wall_thickness)).
  split; [exact (make_hollow_exported lib _ _ _ _ m box Hload Hb)|].
  destruct (hollow_mesh_of_lengths lib m
              (scale_factor (min_dim box) wall_thickness)) as [-> _].
  unfold hollow_mesh_of. rewrite concatenate_two. cbn [faces inner_mesh_of].
  fold n.
  assert (Hinner :
    forallb (face_within n (2 * n)) (map (offset_face n) (fliplr (faces m)))
    = true).
  { clear -Hin. unfold fliplr.
    induction (faces m) as [|[[a b] c] fs IH]; [reflexivity|].
    cbn [forallb] in Hin. apply andb_prop in Hin as [Hf Hfs].
    cbn [map forallb]. rewrite (IH Hfs), andb_true_r.
    unfold face_within, offset_face in *. lia. }
  assert (Hwiden : forall lo fs,
    (0 <= lo <= n)%Z -> forallb (face_within lo (lo + n)) fs = true ->
    forallb (face_within 0 (Z.of_nat (2 * length (vertices m)))) fs = true).
  { intros lo fs Hlo. induction fs as [|[[a b] c] fs IH]; [reflexivity|].
    cbn [forallb]. intros Hfs. apply andb_prop in Hfs as [Hf Hfs].
    rewrite (IH Hfs), andb_true_r. unfold face_within, n in *.
    rewrite Nat2Z.inj_mul.
    rewrite !andb_true_iff, !Z.leb_le, !Z.ltb_lt in *. lia. }
  split; [|split].
  - rewrite forallb_app. apply andb_true_intro. split.
    + apply (Hwiden 0%Z); [lia|exact Hin].
    + apply (Hwiden n); [lia|]. replace (n + n)%Z with (2 * n)%Z by lia.
      exact Hinner.
  - now rewrite take_app_length.
  - now rewrite drop_app_length.
Qed.

End Console.

(** ** A failing export *)

Section FailedExport.
Context {F : Type} `{Scalar F} {World : Type}.
Variable lib : Library F World.

(** X14.  When [export] raises, the call raises the same error and stops
    there: [export] was called once, on the output path, the call is the
    last thing the run did, neither "Done" nor the closing savings line is
    printed, and the world is the one the failed call left. *)
Theorem failed_export_skips_the_closing_lines
    st input_file output_file wall_thickness m box :
  trimesh_load_mesh lib input_file (world st) = Some m ->
  bounds lib m = Some box ->
  let s := scale_factor (min_dim box) wall_thickness in
  let hollow := hollow_mesh_of lib m s in
  snd (trimesh_export lib hollow output_file (world st)) = false ->
  let run := make_hollow lib input_file output_file wall_thickness in
  fst (run st) = Raise ExportFailure
  /\ exported (output_of run st) = [(output_file, hollow)]
  /\ last (output_of run st) = Some (Exported output_file hollow)
  /\ ~ In (Printed Done) (output_of run st)
  /\ (forall s', ~ In (Printed (ShouldSave s')) (output_of run st))
  /\ world (snd (run st))
     = fst (trimesh_export lib hollow output_file (world st)).
Proof.
  intros Hload Hb s hollow Hfail run. unfold run.
  rewrite (make_hollow_result lib _ _ _ _ m box Hload Hb).
  rewrite (make_hollow_exported lib _ _ _ _ m box Hload Hb).
  rewrite (make_hollow_output lib _ _ _ _ m box Hload Hb).
  rewrite (make_hollow_run lib _ _ _ _ m box Hload Hb).
  cbv zeta. fold s hollow. rewrite Hfail.
  split; [reflexivity|]. split; [reflexivity|]. split; [reflexivity|].
  split; [|split; [|reflexivity]].
  - cbn. intros Hin. repeat destruct Hin as [Hin|Hin]; discriminate || tauto.
  - intros s'. cbn. intros Hin.
    repeat destruct Hin as [Hin|Hin]; discriminate || tauto.
Qed.

End FailedExport.

(** ** NaN and the least dimension in binary64 *)

Lemma SFcompare_refl x : x <> S754_nan -> SFcompare x x = Some Eq.
Proof.
  destruct x as [s|s| |s m e]; cbn -[Z.compare Pos.compare];
    intros Hx; try congruence.
  - now destruct s.
  - destruct s; rewrite Z.compare_refl;
      change (PosDef.Pos.compare_cont Eq m m) with (Pos.compare m m);
      now rewrite Pos.compare_refl.
Qed.

Lemma is_nan_Prim2SF (x : float) : is_nan x = true -> Prim2SF x = S754_nan.
Proof.
  unfold is_nan. rewrite FloatAxioms.eqb_spec. unfold SFeqb. intros E.
  destruct (Prim2SF x) as [s|s| |s m e] eqn:Ex; try reflexivity;
    rewrite SFcompare_refl in E by discriminate; discriminate.
Qed.

Lemma not_nan_Prim2SF (x : float) : is_nan x = false -> Prim2SF x <> S754_nan.
Proof.
  unfold is_nan. rewrite FloatAxioms.eqb_spec. unfold SFeqb. intros E Ex.
  rewrite Ex in E. discriminate.
Qed.

(** No number is below or above a NaN. *)
Lemma ltb_nan_l (x y : float) : is_nan x = true -> (x <? y)%float = false.
Proof.
  intros Hx. rewrite FloatAxioms.ltb_spec, (is_nan_Prim2SF x Hx).
  reflexivity.
Qed.

Lemma ltb_nan_r (x y : float) : is_nan y = true -> (x <? y)%float = false.
Proof.
  intros Hy. rewrite FloatAxioms.ltb_spec, (is_nan_Prim2SF y Hy).
  unfold SFltb. now destruct (Prim2SF x).
Qed.

(** Arithmetic on a NaN gives a NaN. *)
Lemma Prim2SF_nan_is_nan (x : float) : Prim2SF x = S754_nan -> is_nan x = true.
Proof.
  intros Ex. unfold is_nan. now rewrite FloatAxioms.eqb_spec, Ex.
Qed.

Lemma mul_nan_r (x y : float) : is_nan y = true -> is_nan (x * y) = true.
Proof.
  intros Hy. apply Prim2SF_nan_is_nan.
  rewrite mul_spec, (is_nan_Prim2SF y Hy). unfold SF64mul, SFmul.
  now destruct (Prim2SF x).
Qed.

Lemma sub_nan_l (x y : float) : is_nan x = true -> is_nan (x - y) = true.
Proof.
  intros Hx. apply Prim2SF_nan_is_nan.
  rewrite sub_spec, (is_nan_Prim2SF x Hx). reflexivity.
Qed.

Lemma sub_nan_r (x y : float) : is_nan y = true -> is_nan (x - y) = true.
Proof.
  intros Hy. apply Prim2SF_nan_is_nan.
  rewrite sub_spec, (is_nan_Prim2SF y Hy). unfold SF64sub, SFsub.
  now destruct (Prim2SF x).
Qed.

Lemma div_nan_l (x y : float) : is_nan x = true -> is_nan (x / y) = true.
Proof.
  intros Hx. apply Prim2SF_nan_is_nan.
  rewrite FloatAxioms.div_spec, (is_nan_Prim2SF x Hx). reflexivity.
Qed.

Lemma clamp_scale_factor_nan (x : float) :
  is_nan x = true -> clamp_scale_factor x = 0.7%float.
Proof.
  intros Hx. rewrite clamp_scale_factor_float.
  now rewrite !(ltb_nan_r _ x Hx).
Qed.

(** The order is total on what is not a NaN. *)
Lemma not_ltb_leb_total (a b : float) :
  is_nan a = false -> is_nan b = false ->
  (b <? a)%float = false -> (a <=? b)%float = true.
Proof.
  intros Ha Hb. apply not_nan_Prim2SF in Ha, Hb.
  rewrite FloatAxioms.ltb_spec, FloatAxioms.leb_spec. unfold SFltb, SFleb.
  destruct (SFcompare (Prim2SF b) (Prim2SF a)) as [c|] eqn:E.
  - rewrite (SFcompare_swap _ _ _ E). destruct c; cbn; congruence.
  - exfalso. destruct (Prim2SF a), (Prim2SF b);
      cbn -[Z.compare Pos.compare] in E; congruence.
Qed.

Lemma leb_refl_total (a : float) : is_nan a = false -> (a <=? a)%float = true.
Proof.
  intros Ha. apply not_nan_Prim2SF in Ha.
  rewrite FloatAxioms.leb_spec. unfold SFleb.
  now rewrite (SFcompare_refl _ Ha).
Qed.

Lemma leb_trans (a b c : float) :
  (a <=? b)%float = true -> (b <=? c)%float = true -> (a <=? c)%float = true.
Proof.
  intros Hab Hbc.
  destruct (b <? c)%float eqn:Hlt.
  - apply ltb_leb. now apply (leb_ltb_trans a b c).
  - destruct (a <? b)%float eqn:Hlt'.
    + apply ltb_leb. now apply (ltb_leb_trans a b c).
    + revert Hab Hbc Hlt Hlt'.
      rewrite !FloatAxioms.ltb_spec, !FloatAxioms.leb_spec.
      unfold SFltb, SFleb.
      destruct (SFcompare (Prim2SF a) (Prim2SF b)) as [[]|] eqn:E1;
        try discriminate.
      destruct (SFcompare (Prim2SF b) (Prim2SF c)) as [[]|] eqn:E2;
        try discriminate.
      intros _ _ _ _.
      pose proof (SFcompare_swap _ _ _ E1) as E1'. cbn in E1'.
      destruct (SFcompare (Prim2SF a) (Prim2SF c)) as [[]|] eqn:E3;
        try reflexivity.
      * pose proof (SFcompare_swap _ _ _ E3) as E3'. cbn in E3'.
        pose proof (SFcompare_Lt_Eq _ _ _ E3' E1) as Habs.
        pose proof (SFcompare_swap _ _ _ E2) as E2'. cbn in E2'.
        congruence.
      * exfalso. destruct (Prim2SF a), (Prim2SF b), (Prim2SF c);
          cbn -[Z.compare Pos.compare] in *; congruence.
Qed.

Lemma ltb_not_nan_l (a b : float) : (a <? b)%float = true -> is_nan a = false.
Proof.
  intros Hlt. destruct (is_nan a) eqn:Ha; [|reflexivity].
  now rewrite (ltb_nan_l a b Ha) in Hlt.
Qed.

Lemma py_min_float_cases (a b : float) :
  (py_min a b = a \/ py_min a b = b)
  /\ (is_nan a = false -> is_nan (py_min a b) = false)
  /\ (is_nan a = true -> py_min a b = a)
  /\ (is_nan a = false -> is_nan b = false ->
      (py_min a b <=? a)%float = true /\ (py_min a b <=? b)%float = true).
Proof.
  unfold py_min. change (fltb b a) with (b <? a)%float.
  destruct (b <? a)%float eqn:Hlt; repeat split; auto.
  - intros _. exact (ltb_not_nan_l b a Hlt).
  - intros Ha. now rewrite (ltb_nan_r b a Ha) in Hlt.
  - now apply ltb_leb.
  - now apply leb_refl_total.
  - now apply leb_refl_total.
  - now apply not_ltb_leb_total.
Qed.

(** X7.  [min(dimensions)] on floats: the result is one of the three
    dimensions; when none of them is a NaN it is at most each of them; it is
    a NaN exactly when the first dimension is one, a NaN in the second or
    third place being skipped. *)
Theorem min_dim_is_the_least_dimension
    (box : row3 float * row3 float) (dx dy dz : float) :
  dimensions box = (dx, dy, dz) ->
  (min_dim box = dx \/ min_dim box = dy \/ min_dim box = dz)
  /\ (is_nan dx = false -> is_nan dy = false -> is_nan dz = false ->
      (min_dim box <=? dx)%float = true
      /\ (min_dim box <=? dy)%float = true
      /\ (min_dim box <=? dz)%float = true)
  /\ (is_nan dx = true -> min_dim box = dx)
  /\ (is_nan dx = false -> is_nan (min_dim box) = false).
Proof.
  intros Hdim. unfold min_dim. rewrite Hdim. cbn [py_min3].
  destruct (py_min_float_cases dx dy) as (H1 & N1 & P1 & L1).
  destruct (py_min_float_cases (py_min dx dy) dz) as (H2 & N2 & P2 & L2).
  split; [|split; [|split]].
  - destruct H2 as [-> | ->]; [destruct H1 as [-> | ->]|]; auto.
  - intros Hx Hy Hz. destruct (L1 Hx Hy) as [Lx Ly].
    destruct (L2 (N1 Hx) Hz) as [Lm Lz].
    repeat split; [now apply (leb_trans _ (py_min dx dy))
                  |now apply (leb_trans _ (py_min dx dy))|exact Lz].
  - intros Hx. rewrite (P1 Hx) in *. exact (P2 Hx).
  - intros Hx. exact (N2 (N1 Hx)).
Qed.

Section Binary64Edges.
Context {World : Type}.
Variable lib : Library float World.

(** X6.  A NaN gives the thickest wall: when the wall thickness or the
    least dimension is a NaN, the raw factor is a NaN, no comparison with it
    holds, and [max(0.7, min(nan, 0.95))] is 0.7; the run goes on with that
    factor. *)
Theorem nan_gives_the_thickest_wall
    st input_file output_file wall_thickness m box :
  trimesh_load_mesh lib input_file (world st) = Some m ->
  bounds lib m = Some box ->
  is_nan wall_thickness = true \/ is_nan (min_dim box) = true ->
  is_nan (raw_scale_factor (min_dim box) wall_thickness) = true
  /\ scale_factors_printed
       (output_of (make_hollow lib input_file output_file wall_thickness) st)
     = [0.7%float]
  /\ exported
       (output_of (make_hollow lib input_file output_file wall_thickness) st)
     = [(output_file, hollow_mesh_of lib m 0.7%float)].
Proof.
  intros Hload Hb Hnan.
  assert (Hraw : is_nan (raw_scale_factor (min_dim box) wall_thickness) = true).
  { unfold raw_scale_factor. cbn [fsub fmul fdiv lit_2 float_Scalar].
    apply div_nan_l. destruct Hnan as [Hw|Hd].
    - now apply sub_nan_r, mul_nan_r.
    - now apply sub_nan_l. }
  split; [exact Hraw|].
  rewrite (make_hollow_scale_factor_printed lib _ _ _ _ m box Hload Hb).
  rewrite (make_hollow_exported lib _ _ _ _ m box Hload Hb).
  unfold scale_factor. now rewrite (clamp_scale_factor_nan _ Hraw).
Qed.

End Binary64Edges.

(** ** The scale factor in exact arithmetic *)

Lemma Qltb_intro (x y : Q) : (x < y)%Q -> Qltb x y = true.
Proof.
  intros Hlt. unfold Qltb. destruct (Qle_bool y x) eqn:E; [|reflexivity].
  apply Qle_bool_iff in E. exfalso. now apply (Qlt_not_le x y).
Qed.

Lemma Qltb_intro_false (x y : Q) : (y <= x)%Q -> Qltb x y = false.
Proof.
  intros Hle. unfold Qltb. apply Qle_bool_iff in Hle. now rewrite Hle.
Qed.

(** The clamp over the rationals, case by case. *)
Lemma clamp_scale_factor_Q (x : Q) :
  clamp_scale_factor x
  = if Qltb (95 # 100) x then (95 # 100)%Q
    else if Qltb (7 # 10) x then x else (7 # 10)%Q.
Proof. rewrite clamp_scale_factor_cases. reflexivity. Qed.

(** The raw factor is [1 - 2 * wall_thickness / min_dim]. *)
Lemma raw_scale_factor_Q (d wt : Q) :
  (0 < d)%Q -> (raw_scale_factor d wt == 1 - 2 * wt / d)%Q.
Proof.
  intros Hd. unfold raw_scale_factor. cbn [fsub fmul fdiv lit_2 Q_Scalar].
  field. intros E. rewrite E in Hd. now apply Qlt_irrefl in Hd.
Qed.

(** Comparing the raw factor with a number. *)
Lemma raw_scale_factor_lt (d wt c : Q) :
  (0 < d)%Q ->
  ((c < raw_scale_factor d wt)%Q <-> (2 * wt < (1 - c) * d)%Q).
Proof.
  intros Hd. unfold raw_scale_factor. cbn [fsub fmul fdiv lit_2 Q_Scalar].
  split; intros Hlt.
  - apply (Qmult_lt_compat_r _ _ d Hd) in Hlt.
    assert (E : ((d - 2 * wt) / d * d == d - 2 * wt)%Q).
    { field. intros E. rewrite E in Hd. now apply Qlt_irrefl in Hd. }
    rewrite E in Hlt. lra.
  - apply Qlt_shift_div_l; [exact Hd|lra].
Qed.

Lemma raw_scale_factor_le (d wt c : Q) :
  (0 < d)%Q ->
  ((raw_scale_factor d wt <= c)%Q <-> ((1 - c) * d <= 2 * wt)%Q).
Proof.
  intros Hd. split; intros Hle.
  - apply Qnot_lt_le. intros Hlt.
    apply (raw_scale_factor_lt d wt c Hd) in Hlt.
    now apply (Qlt_not_le _ _ Hlt).
  - apply Qnot_lt_le. intros Hlt.
    apply (raw_scale_factor_lt d wt c Hd) in Hlt.
    now apply (Qlt_not_le _ _ Hlt).
Qed.

(** X8.  When the wall thickness is honoured, in exact arithmetic and for
    a positive least dimension [d]: below [d / 40] the factor is 0.95, above
    [3 * d / 20] it is 0.7, and in between it is
    [1 - 2 * wall_thickness / d].  In between, two vertices that are [d]
    apart along an axis have images [d - 2 * wall_thickness] apart,
    wherever the centroid lies: the two gaps add up to twice the wall
    thickness, and each of them is the wall thickness when the centroid
    lies midway between the two along that axis. *)
Theorem wall_thickness_is_honoured_between_bounds (d wt : Q) :
  (0 < d)%Q ->
  let s := scale_factor d wt in
  ((40 * wt < d)%Q -> s = (95 # 100)%Q)
  /\ ((3 * d < 20 * wt)%Q -> s = (7 # 10)%Q)
  /\ ((d <= 40 * wt)%Q -> (20 * wt <= 3 * d)%Q ->
      (s == 1 - 2 * wt / d)%Q
      /\ forall (a : axis) (c lo hi : row3 Q),
           (coord a hi - coord a lo == d)%Q ->
           (coord a (scale_row c s hi) - coord a (scale_row c s lo)
            == d - 2 * wt)%Q
           /\ ((coord a c == (coord a lo + coord a hi) / 2)%Q ->
               (coord a (scale_row c s lo) == coord a lo + wt)%Q
               /\ (coord a (scale_row c s hi) == coord a hi - wt)%Q)).
Proof.
  intros Hd s. unfold s, scale_factor. rewrite clamp_scale_factor_Q.
  split; [|split].
  - intros Hwt. rewrite Qltb_intro; [reflexivity|].
    apply raw_scale_factor_lt; [exact Hd|lra].
  - intros Hwt.
    rewrite Qltb_intro_false, Qltb_intro_false; [reflexivity| |].
    + apply raw_scale_factor_le; [exact Hd|lra].
    + apply raw_scale_factor_le; [exact Hd|lra].
  - intros Hlo Hhi.
    rewrite Qltb_intro_false by (apply raw_scale_factor_le; [exact Hd|lra]).
    set (s' := if Qltb (7 # 10) (raw_scale_factor d wt)
               then raw_scale_factor d wt else (7 # 10)%Q).
    assert (Hs : (s' == 1 - 2 * wt / d)%Q).
    { unfold s'. destruct (Qltb (7 # 10) (raw_scale_factor d wt)) eqn:E.
      - now apply raw_scale_factor_Q.
      - apply Qltb_false in E.
        apply (raw_scale_factor_le d wt (7 # 10) Hd) in E.
        assert (Ewt : (wt == (3 # 20) * d)%Q) by lra.
        rewrite Ewt. field. intros E0. rewrite E0 in Hd.
        now apply Qlt_irrefl in Hd. }
    split; [exact Hs|].
    assert (Hsd : (s' * d == d - 2 * wt)%Q).
    { rewrite Hs. field. intros E0. rewrite E0 in Hd.
      now apply Qlt_irrefl in Hd. }
    clearbody s'.
    intros a [[cx cy] cz] [[x0 y0] z0] [[x1 y1] z1].
    unfold scale_row. cbn [fsub fadd fmul Q_Scalar].
    destruct a; cbn [coord]; intros Hdim; (split; [nra|]);
      intros Hmid;
      match goal with
      | H : (?c == (?l + ?h) / 2)%Q |- _ =>
          assert (Hc : (2 * c == l + h)%Q) by (rewrite H; field); clear H
      end;
      split; nra.
Qed.

Lemma clamp_scale_factor_Q_mono (x y : Q) :
  (x <= y)%Q -> (clamp_scale_factor x <= clamp_scale_factor y)%Q.
Proof.
  intros Hxy. rewrite !clamp_scale_factor_Q.
  destruct (Qltb (95 # 100) x) eqn:Ex95, (Qltb (95 # 100) y) eqn:Ey95,
    (Qltb (7 # 10) x) eqn:Ex7, (Qltb (7 # 10) y) eqn:Ey7;
    repeat match goal with
           | E : Qltb _ _ = true |- _ => apply Qltb_true in E
           | E : Qltb _ _ = false |- _ => apply Qltb_false in E
           end; lra.
Qed.

(** X9.  In exact arithmetic and for a positive least dimension, a thicker
    wall never gives a larger scale factor. *)
Theorem thicker_wall_never_scales_up (d wt wt' : Q) :
  (0 < d)%Q -> (wt <= wt')%Q ->
  (scale_factor d wt' <= scale_factor d wt)%Q.
Proof.
  intros Hd Hwt. unfold scale_factor. apply clamp_scale_factor_Q_mono.
  unfold raw_scale_factor. cbn [fsub fmul fdiv lit_2 Q_Scalar].
  unfold Qdiv. apply Qmult_le_compat_r; [lra|].
  apply Qlt_le_weak, Qinv_lt_0_compat, Hd.
Qed.

(** A point between [x] and the centre stays in every interval that holds
    both. *)
Lemma scaled_coordinate_within (lo hi x c s : Q) :
  (lo <= x <= hi)%Q -> (lo <= c <= hi)%Q -> (0 <= s <= 1)%Q ->
  (lo <= (x - c) * s + c <= hi)%Q.
Proof. intros Hx Hc Hs. split; nra. Qed.

Lemma scale_row_within (lo hi c v : row3 Q) (s : Q) :
  (0 <= s <= 1)%Q -> row_within lo hi c -> row_within lo hi v ->
  row_within lo hi (scale_row c s v).
Proof.
  destruct lo as [[x0 y0] z0], hi as [[x1 y1] z1], c as [[cx cy] cz],
    v as [[x y] z].
  unfold row_within, scale_row. cbn [fsub fadd fmul Q_Scalar].
  intros Hs (Hcx & Hcy & Hcz) (Hx & Hy & Hz).
  split; [|split]; now apply scaled_coordinate_within.
Qed.

Section ExactShell.
Context {World : Type}.
Variable lib : Library Q World.

(** X11.  In exact arithmetic the inner shell stays inside: every
    axis-aligned box that holds the loaded vertices and the centroid holds
    every vertex of the exported mesh. *)
Theorem inner_shell_stays_in_the_box
    st input_file output_file wall_thickness m box lo hi :
  trimesh_load_mesh lib input_file (world st) = Some m ->
  bounds lib m = Some box ->
  row_within lo hi (centroid lib m) ->
  (forall v, In v (vertices m) -> row_within lo hi v) ->
  exists hollow,
    exported
      (output_of (make_hollow lib input_file output_file wall_thickness) st)
    = [(output_file, hollow)]
    /\ forall v, In v (vertices hollow) -> row_within lo hi v.
Proof.
  intros Hload Hb Hc Hvs.
  exists (hollow_mesh_of lib m (scale_factor (min_dim box) wall_thickness)).
  split; [exact (make_hollow_exported lib _ _ _ _ m box Hload Hb)|].
  unfold hollow_mesh_of. rewrite concatenate_two. cbn [vertices inner_mesh_of].
  intros v Hv. apply in_app_or in Hv as [Hv|Hv]; [now apply Hvs|].
  unfold scale_vertices in Hv. apply in_map_iff in Hv as (u & <- & Hu).
  apply scale_row_within; [|exact Hc|now apply Hvs].
  unfold scale_factor.
  destruct (clamp_scale_factor_Q_range
              (raw_scale_factor (min_dim box) wall_thickness)) as [Hlo Hhi].
  split; lra.
Qed.

(** X13.  In exact arithmetic the savings figure [(1 - scale**3) * 100] of
    the two savings lines is computed from the one scale factor of the run
    and lies between 14.2625 and 65.7. *)
Theorem material_savings_lie_between_14_and_66
    st input_file output_file wall_thickness m box :
  trimesh_load_mesh lib input_file (world st) = Some m ->
  bounds lib m = Some box ->
  let run := make_hollow lib input_file output_file wall_thickness in
  let s := scale_factor (min_dim box) wall_thickness in
  In (Printed (MaterialSavings s)) (output_of run st)
  /\ (forall s',
        In (Printed (MaterialSavings s')) (output_of run st)
        \/ In (Printed (ShouldSave s')) (output_of run st) ->
        s' = s)
  /\ (142625 # 10000 <= material_savings s)%Q
  /\ (material_savings s <= 657 # 10)%Q.
Proof.
  intros Hload Hb run s. unfold run.
  rewrite (make_hollow_output lib _ _ _ _ m box Hload Hb). cbv zeta. fold s.
  split; [cbn; tauto|]. split.
  - intros s' [Hin|Hin]; apply in_app_or in Hin as [Hin|Hin];
      try (cbn in Hin; repeat destruct Hin as [Hin|Hin];
           congruence || contradiction);
      destruct (snd _); cbn in Hin; repeat destruct Hin as [Hin|Hin];
      congruence || contradiction.
  - unfold material_savings, s, scale_factor.
    destruct (clamp_scale_factor_Q_range
                (raw_scale_factor (min_dim box) wall_thickness)) as [Hlo Hhi].
    set (x := clamp_scale_factor _) in *.
    unfold Qpower, Qpower_positive, pow_pos.
    assert (Hsq : (49 # 100 <= x * x)%Q /\ (x * x <= 9025 # 10000)%Q)
      by (split; nra).
    split; nra.
Qed.

End ExactShell.

(** ** These theorems at work on concrete meshes *)

Lemma successful_run_transcript_witness :
  let s := scale_factor (min_dim ((0, 0, 0), (1, 1, 1))%float) 0.1%float in
  let hollow := hollow_mesh_of (stand_in true) unit_cube s in
  fst (make_hollow (stand_in true) "cube.stl" "hollow.stl" 0.1%float
         (fresh_state cube_files)) = Ok tt
  /\ output_of (make_hollow (stand_in true) "cube.stl" "hollow.stl" 0.1%float)
       (fresh_state cube_files)
     = [ Printed (Loading "cube.stl");
         Printed OriginalMesh;
         Printed (NVertices (length (vertices unit_cube)));
         Printed (NFaces (length (faces unit_cube)));
         Printed (VolumeIs (volume (stand_in true) unit_cube));
         Printed (IsWatertight (is_watertight (stand_in true) unit_cube));
         Printed (CreatingShell 0.1%float);
         Printed (ScaleFactorIs s);
         Printed Combining;
         Printed HollowMesh;
         Printed (NVertices (2 * length (vertices unit_cube)));
         Printed (NFaces (2 * length (faces unit_cube)));
         Printed (MaterialSavings s);
         Printed (Exporting "hollow.stl");
         Exported "hollow.stl" hollow;
         Printed Done;
         Printed (ShouldSave s) ].
Proof.
  apply (successful_run_transcript (stand_in true) (fresh_state cube_files)
           "cube.stl" "hollow.stl" 0.1%float unit_cube
           ((0, 0, 0), (1, 1, 1))%float).
  - vm_compute. reflexivity.
  - vm_compute. reflexivity.
  - vm_compute. reflexivity.
Defined.

Lemma failed_load_prints_one_line_witness :
  let run :=
    make_hollow (stand_in true) "missing.stl" "hollow.stl" 0.1%float in
  let st := fresh_state cube_files in
  fst (run st) = Raise LoadFailure
  /\ output_of run st = [Printed (Loading "missing.stl")]
  /\ heap (snd (run st)) = heap st
  /\ world (snd (run st)) = world st.
Proof.
  apply (failed_load_prints_one_line (stand_in true) (fresh_state cube_files)
           "missing.stl" "hollow.stl" 0.1%float).
  vm_compute. reflexivity.
Defined.

Lemma main_overwrites_its_input_witness :
  let lib := stand_in true in
  let st := fresh_state top_files in
  let hollow :=
    hollow_mesh_of lib unit_cube
      (scale_factor (min_dim ((0, 0, 0), (1, 1, 1))%float) lit_2) in
  In (Printed (Loading "Top.stl")) (output_of (main lib) st)
  /\ exported (output_of (main lib) st) = [("Top.stl", hollow)]
  /\ world (snd (main lib st))
     = fst (trimesh_export lib hollow "Top.stl" (world st))
  /\ length (vertices hollow) = 2 * length (vertices unit_cube).
Proof.
  apply (main_overwrites_its_input (stand_in true) (fresh_state top_files)
           unit_cube ((0, 0, 0), (1, 1, 1))%float).
  - vm_compute. reflexivity.
  - vm_compute. reflexivity.
Defined.

Lemma hollow_faces_index_their_own_shell_witness :
  let n := Z.of_nat (length (vertices unit_cube)) in
  exists hollow,
    exported
      (output_of (make_hollow (stand_in true) "cube.stl" "hollow.stl" 0.1%float)
         (fresh_state cube_files))
    = [("hollow.stl", hollow)]
    /\ forallb (face_within 0 (Z.of_nat (length (vertices hollow))))
         (faces hollow) = true
    /\ forallb (face_within 0 n)
         (take (length (faces unit_cube)) (faces hollow)) = true
    /\ forallb (face_within n (2 * n))
         (drop (length (faces unit_cube)) (faces hollow)) = true.
Proof.
  apply (hollow_faces_index_their_own_shell (stand_in true)
           (fresh_state cube_files) "cube.stl" "hollow.stl" 0.1%float
           unit_cube ((0, 0, 0), (1, 1, 1))%float).
  - vm_compute. reflexivity.
  - vm_compute. reflexivity.
  - vm_compute. reflexivity.
Defined.

Lemma min_dim_is_the_least_dimension_witness :
  let box := ((0, 0, 0), (1, 2, 3))%float in
  (min_dim box = 1%float \/ min_dim box = 2%float \/ min_dim box = 3%float)
  /\ (is_nan 1 = false -> is_nan 2 = false -> is_nan 3 = false ->
      (min_dim box <=? 1)%float = true
      /\ (min_dim box <=? 2)%float = true
      /\ (min_dim box <=? 3)%float = true)
  /\ (is_nan 1 = true -> min_dim box = 1%float)
  /\ (is_nan 1 = false -> is_nan (min_dim box) = false).
Proof.
  apply (min_dim_is_the_least_dimension ((0, 0, 0), (1, 2, 3))%float
           1%float 2%float 3%float).
  vm_compute. reflexivity.
Defined.

Lemma nan_gives_the_thickest_wall_witness :
  let run := make_hollow (stand_in true) "cube.stl" "hollow.stl" nan in
  let st := fresh_state cube_files in
  is_nan (raw_scale_factor (min_dim ((0, 0, 0), (1, 1, 1))%float) nan) = true
  /\ scale_factors_printed (output_of run st) = [0.7%float]
  /\ exported (output_of run st)
     = [("hollow.stl", hollow_mesh_of (stand_in true) unit_cube 0.7%float)].
Proof.
  apply (nan_gives_the_thickest_wall (stand_in true) (fresh_state cube_files)
           "cube.stl" "hollow.stl" nan unit_cube
           ((0, 0, 0), (1, 1, 1))%float).
  - vm_compute. reflexivity.
  - vm_compute. reflexivity.
  - left. vm_compute. reflexivity.
Defined.

Lemma wall_thickness_is_honoured_between_bounds_witness :
  scale_factor 20%Q (1 # 10)%Q = (95 # 100)%Q
  /\ scale_factor 20%Q 4%Q = (7 # 10)%Q
  /\ (scale_factor 20%Q 2%Q == 1 - 2 * 2 / 20)%Q
  /\ (coord X_axis (scale_row (3, 0, 0) (scale_factor 20 2) (20, 0, 0))
      - coord X_axis (scale_row (3, 0, 0) (scale_factor 20 2) (0, 0, 0))
      == 20 - 2 * 2)%Q
  /\ (coord X_axis (scale_row (10, 0, 0) (scale_factor 20 2) (0, 0, 0))
      == 0 + 2)%Q
  /\ (coord X_axis (scale_row (10, 0, 0) (scale_factor 20 2) (20, 0, 0))
      == 20 - 2)%Q.
Proof.
  destruct (wall_thickness_is_honoured_between_bounds 20%Q (1 # 10)%Q
              ltac:(reflexivity)) as (Hthin & _ & _).
  destruct (wall_thickness_is_honoured_between_bounds 20%Q 4%Q
              ltac:(reflexivity)) as (_ & Hthick & _).
  destruct (wall_thickness_is_honoured_between_bounds 20%Q 2%Q
              ltac:(reflexivity)) as (_ & _ & Hmiddle).
  destruct Hmiddle as [Hs Haxis];
    [vm_compute; discriminate|vm_compute; discriminate|].
  destruct (Haxis X_axis (3, 0, 0)%Q (0, 0, 0)%Q (20, 0, 0)%Q
              ltac:(reflexivity)) as [Hgap _].
  destruct (Haxis X_axis (10, 0, 0)%Q (0, 0, 0)%Q (20, 0, 0)%Q
              ltac:(reflexivity)) as [_ Hmid].
  destruct Hmid as [Hlo Hhi]; [reflexivity|].
  split; [apply Hthin; reflexivity|]. split; [apply Hthick; reflexivity|].
  split; [exact Hs|]. split; [exact Hgap|]. split; [exact Hlo|exact Hhi].
Defined.

Lemma thicker_wall_never_scales_up_witness :
  (scale_factor 20%Q 2%Q <= scale_factor 20%Q 1%Q)%Q.
Proof.
  apply (thicker_wall_never_scales_up 20%Q 1%Q 2%Q).
  - reflexivity.
  - vm_compute. discriminate.
Defined.

Lemma inner_shell_stays_in_the_box_witness :
  exists hollow,
    exported
      (output_of
         (make_hollow (stand_in true) "cube.stl" "hollow.stl" (1 # 10)%Q)
         (fresh_state cube_files_Q))
    = [("hollow.stl", hollow)]
    /\ forall v,
         In v (vertices hollow) -> row_within (0, 0, 0)%Q (1, 1, 1)%Q v.
Proof.
  apply (inner_shell_stays_in_the_box (stand_in true)
           (fresh_state cube_files_Q) "cube.stl" "hollow.stl" (1 # 10)%Q
           unit_cube_Q ((0, 0, 0), (1, 1, 1))%Q).
  - vm_compute. reflexivity.
  - vm_compute. reflexivity.
  - vm_compute. repeat split; discriminate.
  - intros v Hv. cbn in Hv.
    repeat destruct Hv as [<-|Hv]; try contradiction;
      vm_compute; repeat split; discriminate.
Defined.

Lemma material_savings_lie_between_14_and_66_witness :
  let run :=
    make_hollow (stand_in true) "cube.stl" "hollow.stl" (1 # 10)%Q in
  let st := fresh_state cube_files_Q in
  let s := scale_factor (min_dim ((0, 0, 0), (1, 1, 1))%Q) (1 # 10)%Q in
  In (Printed (MaterialSavings s)) (output_of run st)
  /\ (forall s',
        In (Printed (MaterialSavings s')) (output_of run st)
        \/ In (Printed (ShouldSave s')) (output_of run st) ->
        s' = s)
  /\ (142625 # 10000 <= material_savings s)%Q
  /\ (material_savings s <= 657 # 10)%Q.
Proof.
  apply (material_savings_lie_between_14_and_66 (stand_in true)
           (fresh_state cube_files_Q) "cube.stl" "hollow.stl" (1 # 10)%Q
           unit_cube_Q ((0, 0, 0), (1, 1, 1))%Q).
  - vm_compute. reflexivity.
  - vm_compute. reflexivity.
Defined.

Lemma failed_export_skips_the_closing_lines_witness :
  let s := scale_factor (min_dim ((0, 0, 0), (1, 1, 1))%float) 0.1%float in
  let hollow := hollow_mesh_of stand_in_torn unit_cube s in
  let run := make_hollow stand_in_torn "cube.stl" "hollow.stl" 0.1%float in
  let st := fresh_state cube_files in
  fst (run st) = Raise ExportFailure
  /\ exported (output_of run st) = [("hollow.stl", hollow)]
  /\ last (output_of run st) = Some (Exported "hollow.stl" hollow)
  /\ ~ In (Printed Done) (output_of run st)
  /\ (forall s', ~ In (Printed (ShouldSave s')) (output_of run st))
  /\ world (snd (run st))
     = fst (trimesh_export stand_in_torn hollow "hollow.stl" (world st)).
Proof.
  apply (failed_export_skips_the_closing_lines stand_in_torn
           (fresh_state cube_files) "cube.stl" "hollow.stl" 0.1%float
           unit_cube ((0, 0, 0), (1, 1, 1))%float).
  - vm_compute. reflexivity.
  - vm_compute. reflexivity.
  - vm_compute. reflexivity.
Defined.

Lemma volume_is_only_reported_witness :
  let lib := stand_in true in
  let vol := fun _ : Trimesh float => 0%float in
  let st := fresh_state cube_files in
  let run := make_hollow lib "cube.stl" "hollow.stl" 0.1%float in
  let run' :=
    make_hollow (with_volume lib vol) "cube.stl" "hollow.stl" 0.1%float in
  In (Printed (VolumeIs (volume lib unit_cube))) (output_of run st)
  /\ In (Printed (VolumeIs (vol unit_cube))) (output_of run' st)
  /\ fst (run st) = fst (run' st)
  /\ heap (snd (run st)) = heap (snd (run' st))
  /\ world (snd (run st)) = world (snd (run' st))
  /\ exported (output_of run st) = exported (output_of run' st)
  /\ exported (output_of run st)
     = [("hollow.stl",
         hollow_mesh_of lib unit_cube
           (scale_factor (min_dim ((0, 0, 0), (1, 1, 1))%float) 0.1%float))]
  /\ without_volume (output_of run st) = without_volume (output_of run' st).
Proof.
  apply (volume_is_only_reported (stand_in true) (fun _ => 0%float)
           (fresh_state cube_files) "cube.stl" "hollow.stl" 0.1%float
           unit_cube ((0, 0, 0), (1, 1, 1))%float).
  - vm_compute. reflexivity.
  - vm_compute. reflexivity.
Defined.
